(** * Spotify recorder: playback monitor and recording orchestration

    A shallow embedding of [src/playback_monitor.py] and [src/recorder.py],
    and of the system checks and the arrow-key menu of [src/cli.py].

    The Python methods are translated into a small state-and-exception
    monad over an explicit program state.  The state holds the wall clock
    (in milliseconds), the number of calls made so far to each remote
    endpoint, the two mutable objects ([PlaybackMonitor] and
    [SpotifyRecorder]) and a trace of every observable action (remote
    calls, sleeps, process launches, signals, log lines, hook calls).

    Everything outside the program (the remote API, the process table,
    the file system) is an [Env]: the answer the k-th call
    of an endpoint gets, how long it takes, whether a spawn succeeds, how
    the capture script ends, how large the output file is.

    Times are integers in milliseconds: [time.sleep(0.5)] is a sleep of
    500, a [timeout] given in seconds is compared after multiplying by
    1000.  Loops without a structural bound take fuel. *)

From Stdlib Require Import ZArith List Ascii String Bool Lia DecimalString.
Import ListNotations.
Local Open Scope string_scope.
Local Open Scope list_scope.
Local Open Scope Z_scope.

(** ** Data *)

(** [playback['item']]: the keys the code reads. *)
Record Item := mkItem {
  item_uri : string;
  item_id : string;
  item_duration_ms : Z
}.

(** The dict returned by [sp.current_playback()].  A key that may be
    missing is an [option]; the code reads it with [.get(key, default)]. *)
Record Playback := mkPlayback {
  pb_item : option Item;
  pb_is_playing : option bool;
  pb_progress_ms : option Z
}.

(** What a remote call does: it returns a value or raises an exception
    of the client library (a subclass of [Exception]). *)
Inductive Response (A : Type) : Type :=
| Returned (a : A)
| Failed.
Arguments Returned {A} a.
Arguments Failed {A}.

Inductive Exn : Type :=
| SpotifyException
| CalledProcessError (returncode : Z)
| KeyboardInterrupt
| ProcessLookupError
| OSError
| ValueError.

(** [except Exception] catches everything but [KeyboardInterrupt], which
    derives from [BaseException]. *)
Definition is_Exception (e : Exn) : bool :=
  match e with
  | KeyboardInterrupt => false
  | _ => true
  end.

Inductive Signal : Type := SIGTERM | SIGKILL.

Inductive Level : Type := DINFO | DERROR | DOK.

(** The log lines of the two modules, one constructor per format string. *)
Inductive Msg : Type :=
| FailedToGetPlaybackState
| WaitingForPlaybackToStart
| TrackStartedAtPosition (progress_ms : Z)
| TrackPlayingButAt (progress_ms : Z)
| TimeoutWaitingForTrack (expected_uri : string)
| PlaybackStopped
| TrackChanged (old : option string) (new : string)
| TrackPositionVerified (progress_ms : Z)
| WaitingForPositionReset (progress_ms : Z)
| TrackDidNotReset (max_wait : Z)
| StartingSpotifyClient
| FailedToStartSpotify
| FoundSpotifyDevices (names : list string)
| WaitingForSpotifyDevice (seconds : Z)
| NoSpotifyDeviceFound
| CannotStartPlayback
| StartingPlayback (attempt max_retries : Z) (uri : string)
| NoPlaybackStateAvailable
| TrackVerifiedPlaying (uri : string) (position_ms : Z)
| WrongTrackPlaying (expected got : string)
| ErrorStartingPlayback (attempt : Z)
| FailedToStartPlaybackAfter (max_retries : Z)
| StartingRecording (uri : string)
| RecordingExitedWithCode (returncode : Z)
| OutputFileNotCreated (filepath : string)
| OutputFileTooSmall (file_size min_expected_size : Z)
| RecordingCompleted (filepath : string) (file_size : Z)
| RecordingFailed
| RecordingInterrupted
| UnexpectedRecordingError
| ErrorCleaningUp.

Inductive Event : Type :=
| EvSleep (ms : Z)
| EvCurrentPlayback
| EvDevices
| EvStartPlayback (uri : string) (position_ms : Z)
| EvPopen (cmd : string)
| EvRun (cmd : list string)
| EvKill (pid : Z) (sig : Signal)
| EvHook (uri : string) (playback : Playback)
| EvLog (lvl : Level) (msg : Msg).

(** How a child process started with [subprocess.run] ends. *)
Inductive RunOutcome : Type :=
| Exited (returncode : Z)
| Interrupted
| SpawnFailed.

Inductive KillOutcome : Type :=
| Killed
| NoSuchProcess
| KillFailed.

Inductive Endpoint : Type := CurrentPlayback | Devices | StartPlayback.

(** The world around the program. *)
Record Env := mkEnv {
  sp_current_playback : nat -> Response (option Playback);
  sp_devices : nat -> Response (option (list string));
  sp_start_playback : nat -> Response unit;
  latency : Endpoint -> nat -> Z;
  popen : string -> bool;
  run : list string -> RunOutcome;
  getsize : string -> option Z;
  os_kill : Z -> Signal -> KillOutcome
}.

(** ** Program state *)

Record PlaybackMonitor := mkMonitor {
  poll_interval : Z;
  mon_verbose : bool;
  current_track_id : option string;
  current_track_uri : option string
}.

Record SpotifyRecorder := mkRecorder {
  rec_verbose : bool;
  recording_process : option Z;
  recording_pid : option Z
}.

Record St := mkSt {
  now : Z;
  n_playback : nat;
  n_devices : nat;
  n_start : nat;
  trace : list Event;
  mon : PlaybackMonitor;
  rec : SpotifyRecorder
}.

(** ** The monad: state, exceptions, fuel *)

Inductive Outcome (A : Type) : Type :=
| Ret (a : A)
| Raise (e : Exn)
| OutOfFuel.
Arguments Ret {A} a.
Arguments Raise {A} e.
Arguments OutOfFuel {A}.

Definition M (A : Type) : Type := St -> Outcome A * St.

Definition ret {A} (a : A) : M A := fun s => (Ret a, s).

Definition raise {A} (e : Exn) : M A := fun s => (Raise e, s).

Definition out_of_fuel {A} : M A := fun s => (OutOfFuel, s).

Definition bind {A B} (m : M A) (k : A -> M B) : M B :=
  fun s =>
    match m s with
    | (Ret a, s') => k a s'
    | (Raise e, s') => (Raise e, s')
    | (OutOfFuel, s') => (OutOfFuel, s')
    end.

Notation "x <- m ;; k" := (bind m (fun x => k))
  (at level 61, m at next level, right associativity).
Notation "m ;; k" := (bind m (fun _ => k))
  (at level 61, right associativity).

(** [try: body except <caught>: handler]; an exception the clause does not
    name goes on to the caller. *)
Definition try_except {A} (body : M A) (caught : Exn -> bool)
    (handler : Exn -> M A) : M A :=
  fun s =>
    match body s with
    | (Raise e, s') => if caught e then handler e s' else (Raise e, s')
    | r => r
    end.

Definition when (b : bool) (m : M unit) : M unit :=
  if b then m else ret tt.

Definition emit (e : Event) : M unit :=
  fun s => (Ret tt, mkSt (now s) (n_playback s) (n_devices s) (n_start s)
                         (e :: trace s) (mon s) (rec s)).

Definition log (lvl : Level) (m : Msg) : M unit := emit (EvLog lvl m).

Definition advance (ms : Z) : M unit :=
  fun s => (Ret tt, mkSt (now s + ms) (n_playback s) (n_devices s) (n_start s)
                         (trace s) (mon s) (rec s)).

Definition time_time : M Z := fun s => (Ret (now s), s).

(** [time.sleep] raises [ValueError] on a negative length. *)
Definition time_sleep (ms : Z) : M unit :=
  if ms <? 0 then raise ValueError
  else emit (EvSleep ms) ;; advance ms.

Definition get_mon : M PlaybackMonitor := fun s => (Ret (mon s), s).

Definition get_rec : M SpotifyRecorder := fun s => (Ret (rec s), s).

Definition set_current_track (tid turi : string) : M unit :=
  fun s => (Ret tt, mkSt (now s) (n_playback s) (n_devices s) (n_start s)
                         (trace s)
                         (mkMonitor (poll_interval (mon s)) (mon_verbose (mon s))
                                    (Some tid) (Some turi))
                         (rec s)).

Definition of_response {A} (r : Response A) : M A :=
  match r with
  | Returned a => ret a
  | Failed => raise SpotifyException
  end.

Section Program.

Variable env : Env.

(** ** Remote calls *)

Definition current_playback : M (option Playback) :=
  fun s =>
    let k := n_playback s in
    of_response (sp_current_playback env k)
      (mkSt (now s + latency env CurrentPlayback k) (S k) (n_devices s)
            (n_start s) (EvCurrentPlayback :: trace s) (mon s) (rec s)).

Definition devices : M (option (list string)) :=
  fun s =>
    let k := n_devices s in
    of_response (sp_devices env k)
      (mkSt (now s + latency env Devices k) (n_playback s) (S k)
            (n_start s) (EvDevices :: trace s) (mon s) (rec s)).

Definition start_playback (uri : string) (position_ms : Z) : M unit :=
  fun s =>
    let k := n_start s in
    of_response (sp_start_playback env k)
      (mkSt (now s + latency env StartPlayback k) (n_playback s) (n_devices s)
            (S k) (EvStartPlayback uri position_ms :: trace s) (mon s) (rec s)).

(** ** Processes and files *)

Definition subprocess_Popen (cmd : string) : M unit :=
  emit (EvPopen cmd) ;;
  if popen env cmd then ret tt else raise OSError.

(** [subprocess.run(cmd, check=...)] returns the exit code; with
    [check=True] a non-zero exit raises [CalledProcessError]. *)
Definition subprocess_run (cmd : list string) (check : bool) : M Z :=
  emit (EvRun cmd) ;;
  match run env cmd with
  | Exited c => if check && negb (c =? 0) then raise (CalledProcessError c)
                else ret c
  | Interrupted => raise KeyboardInterrupt
  | SpawnFailed => raise OSError
  end.

Definition kill (pid : Z) (sig : Signal) : M unit :=
  emit (EvKill pid sig) ;;
  match os_kill env pid sig with
  | Killed => ret tt
  | NoSuchProcess => raise ProcessLookupError
  | KillFailed => raise OSError
  end.

Definition os_path_exists (filepath : string) : bool :=
  match getsize env filepath with
  | Some _ => true
  | None => false
  end.

Definition os_path_getsize (filepath : string) : M Z :=
  match getsize env filepath with
  | Some n => ret n
  | None => raise OSError
  end.

(** ** playback_monitor.py *)

Definition get_playback_state : M (option Playback) :=
  try_except current_playback is_Exception
    (fun _ =>
       m <- get_mon ;;
       when (mon_verbose m) (log DERROR FailedToGetPlaybackState) ;;
       ret None).

(** [not playback or not playback.get('item')] is false exactly when both
    are there. *)
Definition playing_item (playback : option Playback) : option (Playback * Item) :=
  match playback with
  | Some pb =>
      match pb_item pb with
      | Some it => Some (pb, it)
      | None => None
      end
  | None => None
  end.

Definition get_is_playing (pb : Playback) : bool :=
  match pb_is_playing pb with
  | Some b => b
  | None => false
  end.

Definition get_progress_ms (pb : Playback) : Z :=
  match pb_progress_ms pb with
  | Some p => p
  | None => 0
  end.

Definition sleep_poll_interval : M unit :=
  m <- get_mon ;;
  time_sleep (poll_interval m).

Fixpoint wait_for_track_start_loop (fuel : nat) (expected_uri : string)
    (timeout start_time : Z) : M bool :=
  match fuel with
  | O => out_of_fuel
  | S fuel' =>
      t <- time_time ;;
      if t - start_time <? timeout * 1000 then
        playback <- get_playback_state ;;
        m <- get_mon ;;
        match playing_item playback with
        | None =>
            when (mon_verbose m) (log DINFO WaitingForPlaybackToStart) ;;
            sleep_poll_interval ;;
            wait_for_track_start_loop fuel' expected_uri timeout start_time
        | Some (pb, it) =>
            let current_uri := item_uri it in
            let is_playing := get_is_playing pb in
            let progress_ms := get_progress_ms pb in
            if (current_uri =? expected_uri)%string && is_playing then
              if progress_ms <? 2000 then
                when (mon_verbose m) (log DOK (TrackStartedAtPosition progress_ms)) ;;
                set_current_track (item_id it) current_uri ;;
                ret true
              else
                when (mon_verbose m) (log DINFO (TrackPlayingButAt progress_ms)) ;;
                sleep_poll_interval ;;
                wait_for_track_start_loop fuel' expected_uri timeout start_time
            else
              sleep_poll_interval ;;
              wait_for_track_start_loop fuel' expected_uri timeout start_time
        end
      else
        log DERROR (TimeoutWaitingForTrack expected_uri) ;;
        ret false
  end.

Definition wait_for_track_start (fuel : nat) (expected_uri : string)
    (timeout : Z) : M bool :=
  start_time <- time_time ;;
  wait_for_track_start_loop fuel expected_uri timeout start_time.

(** [current_uri != self.current_track_uri]: a string never equals [None]. *)
Definition differs (current_uri : string) (known : option string) : bool :=
  match known with
  | Some u => negb (current_uri =? u)%string
  | None => true
  end.

(** [on_change] is [Some tt] when the caller passed a hook; calling it is
    an event of the trace. *)
Fixpoint monitor_until_track_change (fuel : nat) (on_change : option unit)
    : M (option string) :=
  match fuel with
  | O => out_of_fuel
  | S fuel' =>
      playback <- get_playback_state ;;
      m <- get_mon ;;
      match playing_item playback with
      | None =>
          when (mon_verbose m) (log DINFO PlaybackStopped) ;;
          ret None
      | Some (pb, it) =>
          let current_uri := item_uri it in
          if differs current_uri (current_track_uri m) then
            when (mon_verbose m)
                 (log DINFO (TrackChanged (current_track_uri m) current_uri)) ;;
            match on_change with
            | Some _ => emit (EvHook current_uri pb)
            | None => ret tt
            end ;;
            ret (Some current_uri)
          else
            sleep_poll_interval ;;
            monitor_until_track_change fuel' on_change
      end
  end.

Definition get_remaining_time : M (option Z) :=
  playback <- get_playback_state ;;
  match playing_item playback with
  | None => ret None
  | Some (pb, it) =>
      let duration_ms := item_duration_ms it in
      let progress_ms := get_progress_ms pb in
      ret (Some (duration_ms - progress_ms))
  end.

Fixpoint wait_for_position_reset_loop (fuel : nat) (expected_uri : string)
    (max_wait start_time : Z) : M bool :=
  match fuel with
  | O => out_of_fuel
  | S fuel' =>
      t <- time_time ;;
      if t - start_time <? max_wait * 1000 then
        playback <- get_playback_state ;;
        m <- get_mon ;;
        match playing_item playback with
        | None =>
            sleep_poll_interval ;;
            wait_for_position_reset_loop fuel' expected_uri max_wait start_time
        | Some (pb, it) =>
            if (item_uri it =? expected_uri)%string then
              let progress_ms := get_progress_ms pb in
              if progress_ms <? 1000 then
                when (mon_verbose m) (log DOK (TrackPositionVerified progress_ms)) ;;
                ret true
              else
                when (mon_verbose m)
                     (log DINFO (WaitingForPositionReset progress_ms)) ;;
                sleep_poll_interval ;;
                wait_for_position_reset_loop fuel' expected_uri max_wait start_time
            else
              sleep_poll_interval ;;
              wait_for_position_reset_loop fuel' expected_uri max_wait start_time
        end
      else
        log DERROR (TrackDidNotReset max_wait) ;;
        ret false
  end.

Definition wait_for_position_reset (fuel : nat) (expected_uri : string)
    (max_wait : Z) : M bool :=
  start_time <- time_time ;;
  wait_for_position_reset_loop fuel expected_uri max_wait start_time.

(** ** recorder.py *)

(** [str(n)] for a Python int. *)
Definition str (n : Z) : string := NilZero.string_of_int (Z.to_int n).

(** [Path(__file__).parent / 'spotdl.sh']: where the module is installed. *)
Variable spotdl_path : string.

Fixpoint ensure_spotify_device_active_loop (fuel : nat)
    (max_wait start_time : Z) : M bool :=
  match fuel with
  | O => out_of_fuel
  | S fuel' =>
      t <- time_time ;;
      if t - start_time <? max_wait * 1000 then
        found <- try_except
          (ds <- devices ;;
           match ds with
           | Some (d :: l) =>
               r <- get_rec ;;
               when (rec_verbose r) (log DOK (FoundSpotifyDevices (d :: l))) ;;
               ret true
           | _ => ret false
           end)
          is_Exception
          (fun _ =>
             r <- get_rec ;;
             t' <- time_time ;;
             when (rec_verbose r)
                  (log DINFO (WaitingForSpotifyDevice
                                (Z.quot (t' - start_time) 1000))) ;;
             ret false) ;;
        if found then ret true
        else
          time_sleep 1000 ;;
          ensure_spotify_device_active_loop fuel' max_wait start_time
      else
        log DERROR NoSpotifyDeviceFound ;;
        ret false
  end.

Definition ensure_spotify_device_active (fuel : nat) (max_wait : Z) : M bool :=
  r <- get_rec ;;
  when (rec_verbose r) (log DINFO StartingSpotifyClient) ;;
  started <- try_except
    (subprocess_Popen "spotify" ;; ret true)
    (fun _ => true)
    (fun _ =>
       try_except
         (subprocess_Popen "/snap/bin/spotify" ;; ret true)
         is_Exception
         (fun _ => log DERROR FailedToStartSpotify ;; ret false)) ;;
  if started then
    start_time <- time_time ;;
    ensure_spotify_device_active_loop fuel max_wait start_time
  else ret false.

(** How one pass through the body of the [for] loop ends. *)
Inductive Flow : Type :=
| FlowReturn (b : bool)
| FlowContinue
| FlowNext.

Definition start_playback_attempt (uri : string) (attempt max_retries : Z)
    : M Flow :=
  r <- get_rec ;;
  try_except
    (when (rec_verbose r)
          (log DINFO (StartingPlayback (attempt + 1) max_retries uri)) ;;
     start_playback uri 0 ;;
     time_sleep 2000 ;;
     current <- current_playback ;;
     match playing_item current with
     | None =>
         when (rec_verbose r) (log DERROR NoPlaybackStateAvailable) ;;
         ret FlowContinue
     | Some (pb, it) =>
         let current_uri := item_uri it in
         let is_playing := get_is_playing pb in
         let position_ms := get_progress_ms pb in
         if (current_uri =? uri)%string && is_playing then
           when (rec_verbose r) (log DOK (TrackVerifiedPlaying uri position_ms)) ;;
           ret (FlowReturn true)
         else
           when (rec_verbose r) (log DERROR (WrongTrackPlaying uri current_uri)) ;;
           ret FlowNext
     end)
    is_Exception
    (fun _ =>
       when (rec_verbose r) (log DERROR (ErrorStartingPlayback (attempt + 1))) ;;
       ret FlowNext).

(** [for attempt in range(max_retries)], [todo] passes still to make. *)
Fixpoint start_playback_attempts (todo : nat) (uri : string)
    (attempt max_retries : Z) : M bool :=
  match todo with
  | O =>
      log DERROR (FailedToStartPlaybackAfter max_retries) ;;
      ret false
  | S todo' =>
      flow <- start_playback_attempt uri attempt max_retries ;;
      match flow with
      | FlowReturn b => ret b
      | FlowContinue =>
          start_playback_attempts todo' uri (attempt + 1) max_retries
      | FlowNext =>
          (if attempt <? max_retries - 1 then time_sleep 1000 else ret tt) ;;
          start_playback_attempts todo' uri (attempt + 1) max_retries
      end
  end.

Definition start_playback_web_api (fuel : nat) (uri : string)
    (max_retries : Z) : M bool :=
  active <- ensure_spotify_device_active fuel 15 ;;
  if negb active then
    log DERROR CannotStartPlayback ;;
    ret false
  else
    start_playback_attempts (Z.to_nat max_retries) uri 0 max_retries.

Definition _cleanup_recording : M unit :=
  r <- get_rec ;;
  match recording_pid r with
  | Some pid =>
      if pid =? 0 then ret tt
      else
        try_except
          (kill pid SIGTERM ;;
           time_sleep 500 ;;
           kill pid SIGKILL)
          is_Exception
          (fun e =>
             match e with
             | ProcessLookupError => ret tt
             | _ => when (rec_verbose r) (log DERROR ErrorCleaningUp)
             end)
  | None => ret tt
  end ;;
  try_except
    (subprocess_run ["pkill"; "pw-record"] false ;; ret tt)
    is_Exception
    (fun _ => ret tt).

Definition spotdl_cmd (uri filepath : string) (expected_duration_s : Z)
    (verbose : bool) : list string :=
  ([spotdl_path; uri; filepath; str expected_duration_s]
     ++ (if verbose then ["1"] else []))%list.

Definition record_track_simple (uri filepath : string)
    (expected_duration_s : Z) : M bool :=
  r <- get_rec ;;
  let spotdl_cmd := spotdl_cmd uri filepath expected_duration_s (rec_verbose r) in
  try_except
    (when (rec_verbose r) (log DOK (StartingRecording uri)) ;;
     returncode <- subprocess_run spotdl_cmd true ;;
     if negb (returncode =? 0) then
       log DERROR (RecordingExitedWithCode returncode) ;;
       ret false
     else if negb (os_path_exists filepath) then
       log DERROR (OutputFileNotCreated filepath) ;;
       ret false
     else
       file_size <- os_path_getsize filepath ;;
       let min_expected_size := expected_duration_s * 20 * 1024 in
       if file_size <? min_expected_size then
         log DERROR (OutputFileTooSmall file_size min_expected_size) ;;
         ret false
       else
         when (rec_verbose r) (log DOK (RecordingCompleted filepath file_size)) ;;
         ret true)
    (fun _ => true)
    (fun e =>
       match e with
       | CalledProcessError _ =>
           log DERROR RecordingFailed ;;
           ret false
       | KeyboardInterrupt =>
           log DERROR RecordingInterrupted ;;
           _cleanup_recording ;;
           ret false
       | _ =>
           log DERROR UnexpectedRecordingError ;;
           _cleanup_recording ;;
           ret false
       end).

End Program.

(** ** Reading traces *)

Definition is_cleanup_sweep (e : Event) : bool :=
  match e with
  | EvRun cmd =>
      if list_eq_dec string_dec cmd ["pkill"; "pw-record"] then true else false
  | _ => false
  end.

Definition is_start_playback (e : Event) : bool :=
  match e with
  | EvStartPlayback _ _ => true
  | _ => false
  end.

Definition is_hook (e : Event) : bool :=
  match e with
  | EvHook _ _ => true
  | _ => false
  end.

Definition is_log (e : Event) : bool :=
  match e with
  | EvLog _ _ => true
  | _ => false
  end.

(** The play commands issued so far. *)
Definition issuances (s : St) : nat :=
  List.length (filter is_start_playback (trace s)).

(** The events of a run in the order they happened, log lines left out. *)
Definition actions (s : St) : list Event :=
  rev (filter (fun e => negb (is_log e)) (trace s)).

(** ** Reading snapshots and time *)

(** The answer of a poll makes [wait_for_track_start] succeed: the
    expected item, playing, less than 2000 ms in. *)
Definition track_started (expected_uri : string)
    (r : Response (option Playback)) : bool :=
  match r with
  | Returned playback =>
      match playing_item playback with
      | Some (pb, it) =>
          (item_uri it =? expected_uri)%string && get_is_playing pb
            && (get_progress_ms pb <? 2000)
      | None => false
      end
  | Failed => false
  end.

(** The answer of a poll makes [wait_for_position_reset] succeed. *)
Definition position_reset (expected_uri : string)
    (r : Response (option Playback)) : bool :=
  match r with
  | Returned playback =>
      match playing_item playback with
      | Some (pb, it) =>
          (item_uri it =? expected_uri)%string && (get_progress_ms pb <? 1000)
      | None => false
      end
  | Failed => false
  end.

(** The answer of a verification fetch makes [start_playback_web_api]
    succeed: the expected item, playing. *)
Definition verified (uri : string) (r : Response (option Playback)) : bool :=
  match r with
  | Returned playback =>
      match playing_item playback with
      | Some (pb, it) => (item_uri it =? uri)%string && get_is_playing pb
      | None => false
      end
  | Failed => false
  end.

(** When the poll loop of a monitor that is at call [k] of the endpoint
    at time [t] begins its [n]-th next pass, if no pass before returns:
    each pass takes the call and one poll interval. *)
Fixpoint poll_time (env : Env) (interval : Z) (k : nat) (t : Z) (n : nat) : Z :=
  match n with
  | O => t
  | S n' =>
      poll_time env interval (S k)
                (t + latency env CurrentPlayback k + interval) n'
  end.

(** ** Scenarios *)

(** The state after [PlaybackMonitor(sp, poll_interval, verbose)] and
    [SpotifyRecorder(monitor, sp, verbose)]. *)
Definition fresh (poll_interval : Z) (verbose : bool) : St :=
  mkSt 0 0 0 0 [] (mkMonitor poll_interval verbose None None)
       (mkRecorder verbose None None).

(** The same state once a track has been observed. *)
Definition observing (poll_interval : Z) (tid turi : string) : St :=
  mkSt 0 0 0 0 [] (mkMonitor poll_interval false (Some tid) (Some turi))
       (mkRecorder false None None).

(** A remote endpoint that answers from a list, then keeps giving [last]. *)
Definition scripted {A} (answers : list A) (last : A) (k : nat) : A :=
  nth k answers last.

(** A world where the player starts, one device shows up, every command is
    accepted at once, nothing plays, the capture script leaves [size]
    bytes (or no file) and ends as [outcome]. *)
Definition world (playback : nat -> Response (option Playback))
    (outcome : RunOutcome) (size : option Z) : Env :=
  mkEnv playback
        (fun _ => Returned (Some ["desktop"]))
        (fun _ => Returned tt)
        (fun _ _ => 0)
        (fun _ => true)
        (fun cmd => match cmd with
                    | "pkill" :: _ => Exited 1
                    | _ => outcome
                    end)
        (fun _ => size)
        (fun _ _ => Killed).

Definition nothing_playing : nat -> Response (option Playback) :=
  fun _ => Returned None.

Definition snapshot (turi : string) (playing : bool) (progress duration : Z)
    : Response (option Playback) :=
  Returned (Some (mkPlayback (Some (mkItem turi "id" duration))
                             (Some playing) (Some progress))).

(** ** More readings of snapshots, device lists and traces *)

(** The snapshot and item a poll shows, read off the answer itself. *)
Definition shown_item (r : Response (option Playback))
    : option (Playback * Item) :=
  match r with
  | Returned (Some pb) =>
      match pb_item pb with
      | Some it => Some (pb, it)
      | None => None
      end
  | _ => None
  end.

(** The answer of a poll shows the track the monitor is watching: an item
    whose URI is the one in [current_track_uri].  A monitor that has not
    observed a track is watching none. *)
Definition watching (known : option string)
    (r : Response (option Playback)) : bool :=
  match shown_item r, known with
  | Some (_, it), Some u => (item_uri it =? u)%string
  | _, _ => false
  end.

(** The URI of the item a poll shows, if it shows one. *)
Definition shown_uri (r : Response (option Playback)) : option string :=
  match shown_item r with
  | Some (_, it) => Some (item_uri it)
  | None => None
  end.

(** The answer of a device query lists a device. *)
Definition device_found (r : Response (option (list string))) : bool :=
  match r with
  | Returned (Some (_ :: _)) => true
  | _ => false
  end.

(** When the device loop, at query [k] and time [t], begins its [n]-th
    next pass if no pass before returns: each pass takes the query and a
    sleep of one second. *)
Fixpoint device_poll_time (env : Env) (k : nat) (t : Z) (n : nat) : Z :=
  match n with
  | O => t
  | S n' => device_poll_time env (S k) (t + latency env Devices k + 1000) n'
  end.

Definition is_kill (e : Event) : bool :=
  match e with
  | EvKill _ _ => true
  | _ => false
  end.

Definition is_fetch (e : Event) : bool :=
  match e with
  | EvCurrentPlayback => true
  | _ => false
  end.

Definition is_device_query (e : Event) : bool :=
  match e with
  | EvDevices => true
  | _ => false
  end.

(** The time spent in [time.sleep] over a trace. *)
Fixpoint slept (tr : list Event) : Z :=
  match tr with
  | [] => 0
  | EvSleep ms :: tr' => ms + slept tr'
  | _ :: tr' => slept tr'
  end.

(** The hook call a poll leads to in [monitor_until_track_change]: one
    call with the item's URI and the snapshot when a hook was passed and
    the poll shows an item. *)
Definition hook_call (on_change : option unit)
    (r : Response (option Playback)) : list Event :=
  match on_change, shown_item r with
  | Some _, Some (pb, it) => [EvHook (item_uri it) pb]
  | _, _ => []
  end.

(** The sweep for stray capture helpers, as the trace shows it. *)
Definition the_sweep : Event := EvRun ["pkill"; "pw-record"].

(** ** cli.py: the system checks and the arrow-key menu *)

(** [needle in haystack] for Python strings. *)
Definition contains (needle haystack : string) : bool :=
  match String.index 0 needle haystack with
  | Some _ => true
  | None => false
  end.

(** What the checks see of the machine: the output of [flatpak list]
    ([None] when the command cannot be started), [shutil.which], which
    paths exist, and what reading a file gives ([None] when it cannot be
    read). *)
Record Host := mkHost {
  flatpak_list : option string;
  which : string -> bool;
  path_exists : string -> bool;
  read_file : string -> option string
}.

Definition check_python_version (major minor : Z) : bool * string :=
  if (3 <=? major) && (10 <=? minor) then
    (true, ("Python " ++ str major ++ "." ++ str minor)%string)
  else
    (false, ("Python " ++ str major ++ "." ++ str minor ++ " (need 3.10+)")%string).

(** [subprocess.run(['flatpak', 'list'], ...)] is not guarded: when the
    command cannot be started the error leaves the function. *)
Definition check_spotify_installed (h : Host) : Outcome (bool * string) :=
  match flatpak_list h with
  | None => Raise OSError
  | Some stdout =>
      if contains "com.spotify.Client" stdout then
        Ret (true, "Spotify (flatpak)")
      else if which h "spotify" || path_exists h "/snap/bin/spotify" then
        Ret (true, "Spotify (snap)")
      else if which h "spotify" then
        Ret (true, "Spotify (native)")
      else
        Ret (false, "Not installed")
  end.

Definition detect_distro (h : Host) : string :=
  if path_exists h "/etc/fedora-release" then "fedora"
  else if path_exists h "/etc/arch-release" then "arch"
  else if path_exists h "/etc/lsb-release" then
    match read_file h "/etc/lsb-release" with
    | Some content => if contains "Ubuntu" content then "ubuntu" else "unknown"
    | None => "unknown"
    end
  else "unknown".

(** The dict of [get_install_commands]. *)
Record InstallCommands := mkCommands {
  cmd_packages : string;
  cmd_python : string;
  cmd_spotify : string
}.

Definition get_install_commands (distro : string) : option InstallCommands :=
  if (distro =? "fedora")%string then
    Some (mkCommands
            "sudo dnf install -y pipewire-utils ffmpeg playerctl pulseaudio-utils python3-pip"
            "pip install -r requirements.txt"
            "flatpak install -y flathub com.spotify.Client")
  else if (distro =? "ubuntu")%string then
    Some (mkCommands
            "sudo apt install -y pipewire-pulse ffmpeg playerctl pulseaudio-utils python3-pip"
            "pip install -r requirements.txt"
            "sudo snap install spotify")
  else if (distro =? "arch")%string then
    Some (mkCommands
            "sudo pacman -S --noconfirm pipewire ffmpeg playerctl libpulse python"
            "pip install -r requirements.txt"
            "yay -S spotify  # Requires AUR helper")
  else None.

(** [supports_ansi]: [lower] is [str.lower]; [isatty] is what
    [sys.stdout.isatty()] does; [term] and [colorterm] are the two
    environment variables, [None] when unset. *)
Definition supports_ansi (lower : string -> string) (isatty : Response bool)
    (term colorterm : option string) : bool :=
  match isatty with
  | Failed => false
  | Returned is_tty =>
      let term := lower (match term with Some t => t | None => "" end) in
      let colorterm := lower (match colorterm with Some t => t | None => "" end) in
      if existsb (String.eqb term)
                 ["xterm"; "xterm-256color"; "screen"; "tmux"; "alacritty";
                  "gnome"; "konsole"] then true
      else if existsb (String.eqb colorterm) ["truecolor"; "24bit"] then true
      else if negb is_tty
              && (negb (term =? "")%string || negb (colorterm =? "")%string)
      then true
      else true
  end.

(** The keys the arrow menu tells apart. *)
Definition ESC : Ascii.ascii := Ascii.ascii_of_nat 27.
Definition CR : Ascii.ascii := Ascii.ascii_of_nat 13.
Definition LF : Ascii.ascii := Ascii.ascii_of_nat 10.
Definition CTRL_C : Ascii.ascii := Ascii.ascii_of_nat 3.

(** [len(menu_items)]. *)
Definition menu_items : Z := 7.

(** What one key does in the inner [try] of [custom_arrow_menu], when the
    terminal calls succeed: the loop is left by [break], goes round
    again, or [sys.exit(0)] raises [SystemExit]. *)
Inductive KeyResult : Type :=
| Break (selected : Z)
| Next (selected : Z)
| SystemExit_raised (selected : Z).

Definition is_seq (a b : Ascii.ascii) (l : list Ascii.ascii) : bool :=
  match l with
  | [x; y] => Ascii.eqb x a && Ascii.eqb y b
  | _ => false
  end.

(** The body of the inner [try]: [key] is [sys.stdin.read(1)], [more]
    what [sys.stdin.read(2)] gives after an escape. *)
Definition read_key (key : Ascii.ascii) (more : list Ascii.ascii)
    (selected : Z) : KeyResult :=
  if Ascii.eqb key ESC then
    if is_seq "["%char "A"%char more then Next ((selected - 1) mod menu_items)
    else if is_seq "["%char "B"%char more then Next ((selected + 1) mod menu_items)
    else Next selected
  else if Ascii.eqb key CR || Ascii.eqb key LF then Break selected
  else if Ascii.eqb key "q"%char || Ascii.eqb key "Q"%char then
    Break (menu_items - 1)
  else if Ascii.eqb key CTRL_C then SystemExit_raised selected
  else Next selected.

(** The handler of the bare [except:], the numbered prompt: the entry
    chosen, or [None] when the answer is not taken and the loop goes
    round.  [choice] is the answer to [input] after [strip]: the number
    written when the answer is made of ASCII digits, [None] for any other
    text. *)
Definition numbered_input (choice : option Z) : option Z :=
  match choice with
  | Some n => if (1 <=? n) && (n <=? 7) then Some (n - 1) else None
  | None => None
  end.

(** The key loop of [custom_arrow_menu] over the characters that
    [sys.stdin] delivers; [input] gives the answer to the n-th numbered
    prompt and [prompts] counts the prompts made.  A bare [except:]
    catches [SystemExit] as well.  At the end of the input [read]
    returns the empty string, which no branch handles, so the loop goes
    round.  The result is the selection the loop is left with. *)
Fixpoint custom_arrow_menu_loop (fuel : nat) (input : nat -> option Z)
    (stdin : list Ascii.ascii) (prompts : nat) (selected : Z) : option Z :=
  match fuel with
  | O => None
  | S fuel' =>
      match stdin with
      | [] => custom_arrow_menu_loop fuel' input [] prompts selected
      | key :: rest =>
          let more := if Ascii.eqb key ESC then firstn 2 rest else [] in
          let rest' := if Ascii.eqb key ESC then skipn 2 rest else rest in
          match read_key key more selected with
          | Break selected' => Some selected'
          | Next selected' =>
              custom_arrow_menu_loop fuel' input rest' prompts selected'
          | SystemExit_raised selected' =>
              match numbered_input (input prompts) with
              | Some chosen => Some chosen
              | None =>
                  custom_arrow_menu_loop fuel' input rest' (S prompts) selected'
              end
          end
      end
  end.

(** The methods the menu dispatches to; [Nothing] when the chain of
    comparisons has no branch for the selection. *)
Inductive Action : Type :=
| Record_track
| Record_album
| Record_playlist
| Search_track
| System_check
| Setup_wizard
| Exit
| Nothing.

Definition handle_selection (selected : Z) : Action :=
  if selected =? 0 then Record_track
  else if selected =? 1 then Record_album
  else if selected =? 2 then Record_playlist
  else if selected =? 3 then Search_track
  else if selected =? 4 then System_check
  else if selected =? 5 then Setup_wizard
  else if selected =? 6 then Exit
  else Nothing.

(** [custom_arrow_menu]: the key loop from the first entry, then the
    dispatch. *)
Definition custom_arrow_menu (fuel : nat) (input : nat -> option Z)
    (stdin : list Ascii.ascii) : option Action :=
  match custom_arrow_menu_loop fuel input stdin 0 0 with
  | Some selected => Some (handle_selection selected)
  | None => None
  end.

(** An up or down arrow as the terminal sends it. *)
Definition arrow (down : bool) : list Ascii.ascii :=
  [ESC; "["%char; if down then "B"%char else "A"%char].

Definition arrows (presses : list bool) : list Ascii.ascii :=
  flat_map arrow presses.

(** Downs minus ups. *)
Fixpoint displacement (presses : list bool) : Z :=
  match presses with
  | [] => 0
  | down :: presses' => (if down then 1 else -1) + displacement presses'
  end.

(** ** The conditions of the operations, on the fields of a snapshot

    What the answer of a poll must be for an operation to succeed, said
    on the fields of the answer itself and not through the helpers of the
    program above. *)

(** The expected item, playing, less than 2000 ms in (a snapshot without
    [progress_ms] counts as 0 ms in; one without [is_playing] as not
    playing). *)
Definition shows_track_start (expected_uri : string)
    (r : Response (option Playback)) : Prop :=
  exists pb it,
    r = Returned (Some pb) /\ pb_item pb = Some it /\
    item_uri it = expected_uri /\
    pb_is_playing pb = Some true /\
    match pb_progress_ms pb with
    | Some p => p < 2000
    | None => True
    end.

(** The expected item with less than 1000 ms of progress, playing or
    not. *)
Definition shows_position_reset (expected_uri : string)
    (r : Response (option Playback)) : Prop :=
  exists pb it,
    r = Returned (Some pb) /\ pb_item pb = Some it /\
    item_uri it = expected_uri /\
    match pb_progress_ms pb with
    | Some p => p < 1000
    | None => True
    end.

(** The requested item, playing, at whatever position. *)
Definition shows_track_playing (uri : string)
    (r : Response (option Playback)) : Prop :=
  exists pb it,
    r = Returned (Some pb) /\ pb_item pb = Some it /\
    item_uri it = uri /\
    pb_is_playing pb = Some true.

(** * Properties *)

Arguments spotdl_cmd : simpl never.

(** ** Recording: the size check ([record_track_simple]) *)

(** C2, as stated, fails: a file of exactly 3,600,000 bytes for a 180 s
    track is rejected as too small, the threshold being 3,686,400. *)
Lemma threshold_is_not_3600000 :
  let r := record_track_simple (world nothing_playing (Exited 0) (Some 3600000))
             "spotdl.sh" "spotify:track:X" "out.ogg" 180 (fresh 500 false) in
  fst r = Ret false /\
  trace (snd r) =
    [EvLog DERROR (OutputFileTooSmall 3600000 3686400);
     EvRun ["spotdl.sh"; "spotify:track:X"; "out.ogg"; "180"]].
Proof. vm_compute. split; reflexivity. Qed.

(** C2, amended: for an expected duration of 180 s, a capture that exits 0
    and leaves a file of [size] bytes succeeds exactly when
    [size >= 180 * 20 * 1024 = 3,686,400]; below that the failure is the
    too-small one.  So 3,000,000 bytes fail and 4,000,000 succeed. *)
Theorem min_expected_size_180 (env : Env) (path uri filepath : string)
    (size : Z) (s : St) :
  run env (spotdl_cmd path uri filepath 180 (rec_verbose (rec s))) = Exited 0 ->
  getsize env filepath = Some size ->
  let r := record_track_simple env path uri filepath 180 s in
  fst r = Ret (3686400 <=? size) /\
  (size < 3686400 ->
   hd_error (trace (snd r)) = Some (EvLog DERROR (OutputFileTooSmall size 3686400))).
Proof.
  intros Hrun Hsize.
  unfold record_track_simple, try_except, bind, get_rec, subprocess_run,
    os_path_exists, os_path_getsize, when, log, emit, ret.
  cbn. rewrite Hrun. cbn. rewrite Hsize. cbn.
  destruct (rec_verbose (rec s)); cbn;
    destruct (size <? 3686400) eqn:Hlt; cbn;
    (split; [ f_equal; lia | intros; try reflexivity; lia ]).
Qed.

Lemma min_expected_size_180_witness :
  fst (record_track_simple (world nothing_playing (Exited 0) (Some 3000000))
         "spotdl.sh" "spotify:track:X" "out.ogg" 180 (fresh 500 false))
    = Ret false /\
  fst (record_track_simple (world nothing_playing (Exited 0) (Some 4000000))
         "spotdl.sh" "spotify:track:X" "out.ogg" 180 (fresh 500 false))
    = Ret true.
Proof.
  split.
  - exact (proj1 (min_expected_size_180
                    (world nothing_playing (Exited 0) (Some 3000000))
                    "spotdl.sh" "spotify:track:X" "out.ogg" 3000000
                    (fresh 500 false) eq_refl eq_refl)).
  - exact (proj1 (min_expected_size_180
                    (world nothing_playing (Exited 0) (Some 4000000))
                    "spotdl.sh" "spotify:track:X" "out.ogg" 4000000
                    (fresh 500 false) eq_refl eq_refl)).
Defined.

(** ** Recording: cleanup ([record_track_simple], [_cleanup_recording]) *)

Ltac prefix_of l t :=
  match l with
  | t => constr:(@nil Event)
  | ?e :: ?l' => let p := prefix_of l' t in constr:(e :: p)
  end.

(** Solves [exists new, l = new ++ t /\ _] when [l] is [t] with events
    consed on. *)
Ltac exists_new :=
  match goal with
  | |- exists new, ?l = new ++ ?t /\ _ =>
      let p := prefix_of l t in exists p; split; [ reflexivity | ]
  end.

Lemma spotdl_cmd_is_not_the_sweep (path uri filepath : string) (d : Z) (v : bool) :
  is_cleanup_sweep (EvRun (spotdl_cmd path uri filepath d v)) = false.
Proof.
  unfold is_cleanup_sweep, spotdl_cmd.
  destruct (list_eq_dec _ _ _) as [E | _]; [ | reflexivity ].
  destruct v; discriminate E.
Qed.

(** C1, as stated, fails: on each of the three post-condition violations
    (exit code 1, no output file, a file of 3,000,000 bytes for a 180 s
    track) the call returns [False] and the run contains no cleanup. *)
Lemma no_cleanup_on_postcondition_violation :
  let go outcome size :=
    record_track_simple (world nothing_playing outcome size)
      "spotdl.sh" "spotify:track:X" "out.ogg" 180 (fresh 500 false) in
  (fst (go (Exited 1) None) = Ret false /\
   existsb is_cleanup_sweep (trace (snd (go (Exited 1) None))) = false) /\
  (fst (go (Exited 0) None) = Ret false /\
   existsb is_cleanup_sweep (trace (snd (go (Exited 0) None))) = false) /\
  (fst (go (Exited 0) (Some 3000000)) = Ret false /\
   existsb is_cleanup_sweep (trace (snd (go (Exited 0) (Some 3000000)))) = false).
Proof. vm_compute. repeat split; reflexivity. Qed.

(** Case analysis on what the goal branches on next: a scrutinee that is
    not itself waiting for another one, and not the rest of a loop. *)
Ltac is_loop_free x :=
  lazymatch x with
  | context [wait_for_track_start_loop] => fail
  | context [wait_for_position_reset_loop] => fail
  | context [monitor_until_track_change] => fail
  | context [ensure_spotify_device_active_loop] => fail
  | context [start_playback_attempts] => fail
  | context [match _ with _ => _ end] => fail
  | _ => idtac
  end.

Ltac break_match :=
  match goal with
  | |- context [match ?x with _ => _ end] => is_loop_free x; destruct x eqn:?
  end.

(** C1, amended: [record_track_simple] runs the cleanup exactly when the
    capture invocation is interrupted or cannot be run at all, and then
    does not report success.  When the capture process exits, with
    whatever code, no cleanup runs; a non-zero code, a missing file and a
    file below the minimum size each make the call return [False]. *)
Theorem cleanup_only_on_interruption (env : Env) (path uri filepath : string)
    (d : Z) (s : St) :
  let cmd := spotdl_cmd path uri filepath d (rec_verbose (rec s)) in
  let r := record_track_simple env path uri filepath d s in
  exists new, trace (snd r) = new ++ trace s /\
    (forall c, run env cmd = Exited c ->
       existsb is_cleanup_sweep new = false /\
       (c <> 0 \/ getsize env filepath = None \/
        (exists n, getsize env filepath = Some n /\ n < d * 20 * 1024) ->
        fst r = Ret false)) /\
    (run env cmd = Interrupted \/ run env cmd = SpawnFailed ->
       existsb is_cleanup_sweep new = true /\
       (fst r = Ret false \/ fst r = Raise KeyboardInterrupt)).
Proof.
  intros cmd r. subst r.
  pose proof (spotdl_cmd_is_not_the_sweep path uri filepath d
                (rec_verbose (rec s))) as Hcmd.
  fold cmd in Hcmd.
  unfold record_track_simple, _cleanup_recording, try_except, bind, get_rec,
    subprocess_run, kill, time_sleep, os_path_exists, os_path_getsize, when,
    log, emit, advance, raise, ret.
  fold cmd.
  destruct (run env cmd) eqn:Hrun; cbn.
  - (* the capture process exited *)
    repeat (break_match; cbn in * ); try discriminate;
      exists_new; (split; [ intros c' Hc'; injection Hc' as <- | intros [?|?]; discriminate ]);
      cbn; rewrite ?Hcmd; (split; [ reflexivity | ]);
      try reflexivity; intros [Hc | [Hnone | [n [Hn Hlt]]]];
      try reflexivity; try congruence; try lia.
    all: try (injection Hn as <-; lia).
  - (* interrupted *)
    repeat (break_match; cbn in * ); try discriminate;
      exists_new; (split; [ intros; discriminate | intros _ ]);
      cbn; rewrite ?Hcmd, ?orb_true_r; auto.
  - (* could not be started *)
    repeat (break_match; cbn in * ); try discriminate;
      exists_new; (split; [ intros; discriminate | intros _ ]);
      cbn; rewrite ?Hcmd, ?orb_true_r; auto.
Qed.

Lemma cleanup_only_on_interruption_witness :
  exists new,
    trace (snd (record_track_simple (world nothing_playing Interrupted None)
                  "spotdl.sh" "spotify:track:X" "out.ogg" 180 (fresh 500 false)))
      = new ++ [] /\
    existsb is_cleanup_sweep new = true.
Proof.
  destruct (cleanup_only_on_interruption
              (world nothing_playing Interrupted None)
              "spotdl.sh" "spotify:track:X" "out.ogg" 180 (fresh 500 false))
    as [new [Htrace [_ Hint]]].
  exists new. split.
  - exact Htrace.
  - apply Hint. left. reflexivity.
Defined.

(** ** Monitor: remaining time ([get_remaining_time]) *)

(** C5, as stated, fails: with 1500 ms played of a 1000 ms item the
    remaining time returned is -500. *)
Lemma remaining_time_can_be_negative :
  fst (get_remaining_time
         (world (fun _ => snapshot "spotify:track:X" true 1500 1000) (Exited 0) None)
         (fresh 500 false))
  = Ret (Some (-500)).
Proof. reflexivity. Qed.

(** C5, amended: on a snapshot whose progress is at or past the duration
    [get_remaining_time] returns normally, and what it returns is the plain
    difference [duration_ms - progress_ms], which is then zero or
    negative: the value is neither clamped nor dropped. *)
Theorem remaining_time_is_plain_difference (env : Env) (s : St)
    (pb : Playback) (it : Item) :
  sp_current_playback env (n_playback s) = Returned (Some pb) ->
  pb_item pb = Some it ->
  item_duration_ms it <= get_progress_ms pb ->
  exists r,
    fst (get_remaining_time env s) = Ret (Some r) /\
    r = item_duration_ms it - get_progress_ms pb /\
    r <= 0.
Proof.
  intros Hresp Hitem Hpast.
  exists (item_duration_ms it - get_progress_ms pb).
  unfold get_remaining_time, get_playback_state, try_except, current_playback,
    of_response, bind, playing_item, ret.
  rewrite Hresp. cbn. rewrite Hitem. cbn.
  repeat split; lia.
Qed.

Lemma remaining_time_is_plain_difference_witness :
  exists r,
    fst (get_remaining_time
           (world (fun _ => snapshot "spotify:track:X" true 1000 1000) (Exited 0) None)
           (fresh 500 false)) = Ret (Some r) /\
    r = 1000 - 1000 /\ r <= 0.
Proof.
  apply (remaining_time_is_plain_difference
           (world (fun _ => snapshot "spotify:track:X" true 1000 1000) (Exited 0) None)
           (fresh 500 false)
           (mkPlayback (Some (mkItem "spotify:track:X" "id" 1000)) (Some true) (Some 1000))
           (mkItem "spotify:track:X" "id" 1000)).
  - reflexivity.
  - reflexivity.
  - unfold get_progress_ms. simpl. lia.
Defined.

(** ** Monitor: change detection with no track observed yet *)

(** C10: while [current_track_uri] is still [None], a first poll that
    reports an item ends [monitor_until_track_change] at once: one poll is
    made, the hook (when one was passed) is called exactly once, with that
    item's URI and the snapshot, and the URI is returned. *)
Theorem first_item_is_a_change_when_unset (env : Env) (fuel : nat)
    (on_change : option unit) (s : St) (pb : Playback) (it : Item) :
  current_track_uri (mon s) = None ->
  sp_current_playback env (n_playback s) = Returned (Some pb) ->
  pb_item pb = Some it ->
  let r := monitor_until_track_change env (S fuel) on_change s in
  fst r = Ret (Some (item_uri it)) /\
  n_playback (snd r) = S (n_playback s) /\
  exists new, trace (snd r) = new ++ trace s /\
    filter is_hook new =
      match on_change with
      | Some _ => [EvHook (item_uri it) pb]
      | None => []
      end.
Proof.
  intros Hunset Hresp Hitem.
  unfold monitor_until_track_change, get_playback_state, try_except,
    current_playback, of_response, bind, get_mon, playing_item, differs,
    when, log, emit, ret.
  rewrite Hresp. cbn. rewrite Hitem, Hunset. cbn.
  destruct (mon_verbose (mon s)), on_change; cbn;
    (split; [ reflexivity | split; [ reflexivity | exists_new; reflexivity ] ]).
Qed.

Lemma first_item_is_a_change_when_unset_witness :
  fst (monitor_until_track_change
         (world (fun _ => snapshot "spotify:track:X" true 90000 200000) (Exited 0) None)
         1 (Some tt) (fresh 500 false))
  = Ret (Some "spotify:track:X").
Proof.
  exact (proj1 (first_item_is_a_change_when_unset
                  (world (fun _ => snapshot "spotify:track:X" true 90000 200000)
                         (Exited 0) None)
                  0 (Some tt) (fresh 500 false)
                  (mkPlayback (Some (mkItem "spotify:track:X" "id" 200000))
                              (Some true) (Some 90000))
                  (mkItem "spotify:track:X" "id" 200000)
                  eq_refl eq_refl eq_refl)).
Defined.

(** ** Starter: the wait between attempts ([start_playback_web_api]) *)

(** C3 at its failing input: two retries allowed, the first verification
    finds nothing playing, the second finds the track.  The second play
    command follows the first verification with no one-second sleep in
    between.  When the first verification finds another track instead,
    the sleep is there. *)
Theorem no_wait_after_unavailable_snapshot :
  let run_with first :=
    start_playback_web_api
      (world (scripted [first] (snapshot "spotify:track:X" true 0 200000))
             (Exited 0) None)
      1 "spotify:track:X" 2 (fresh 500 false) in
  fst (run_with (Returned None)) = Ret true /\
  actions (snd (run_with (Returned None))) =
    [EvPopen "spotify"; EvDevices;
     EvStartPlayback "spotify:track:X" 0; EvSleep 2000; EvCurrentPlayback;
     EvStartPlayback "spotify:track:X" 0; EvSleep 2000; EvCurrentPlayback] /\
  actions (snd (run_with (snapshot "spotify:track:Y" true 0 200000))) =
    [EvPopen "spotify"; EvDevices;
     EvStartPlayback "spotify:track:X" 0; EvSleep 2000; EvCurrentPlayback;
     EvSleep 1000;
     EvStartPlayback "spotify:track:X" 0; EvSleep 2000; EvCurrentPlayback].
Proof. vm_compute. repeat split; reflexivity. Qed.

(** ** Device activation ([ensure_spotify_device_active]) *)

(** C6, as stated, fails: with a device enumerable at every query the
    player is launched all the same, before the first query. *)
Lemma launches_although_device_present :
  let r := ensure_spotify_device_active (world nothing_playing (Exited 0) None)
             1 15 (fresh 500 false) in
  sp_devices (world nothing_playing (Exited 0) None) 0 = Returned (Some ["desktop"]) /\
  fst r = Ret true /\
  actions (snd r) = [EvPopen "spotify"; EvDevices].
Proof. vm_compute. repeat split; reflexivity. Qed.

(** What the device poll loop leaves alone: the monitor, the recorder,
    the playback and play-command counters; it only adds events, none of
    them a play command. *)
Lemma ensure_spotify_device_active_loop_frame (env : Env) (fuel : nat) :
  forall (max_wait start_time : Z) (s : St),
    let s' := snd (ensure_spotify_device_active_loop env fuel max_wait start_time s) in
    n_playback s' = n_playback s /\ n_start s' = n_start s /\
    mon s' = mon s /\ rec s' = rec s /\
    exists new, trace s' = new ++ trace s /\ filter is_start_playback new = [].
Proof.
  induction fuel as [| fuel IH]; intros max_wait start_time s; cbn zeta.
  - cbn. repeat split. exists []. split; reflexivity.
  - cbn [ensure_spotify_device_active_loop].
    unfold bind, time_time, try_except, devices, of_response, get_rec, when,
      log, emit, time_sleep, advance, raise, ret.
    cbn.
    repeat (break_match; cbn);
      try (repeat split; exists_new; reflexivity);
      match goal with
      | |- context [ensure_spotify_device_active_loop env fuel ?m ?st ?s2] =>
          destruct (IH m st s2) as (Hp & Hs & Hm & Hr & new & Ht & Hf);
          cbn in Hp, Hs, Hm, Hr, Ht;
          rewrite Hp, Hs, Hm, Hr, Ht; repeat split;
          match goal with
          | |- exists n, new ++ ?l = n ++ ?t /\ _ =>
              let p := prefix_of l t in
              exists (new ++ p); split;
              [ rewrite <- app_assoc; reflexivity
              | rewrite filter_app, Hf; reflexivity ]
          end
      end.
Qed.

(** C6, amended: [ensure_spotify_device_active] always launches the player
    first, whatever devices there are: after the optional log line the
    first event of the call is the spawn of [spotify], and every device
    query comes later.  When that spawn and the one of
    [/snap/bin/spotify] both fail, it returns [False] at once and makes no
    device query and no sleep. *)
Theorem always_launches_then_polls (env : Env) (fuel : nat) (max_wait : Z)
    (s : St) :
  let r := ensure_spotify_device_active env fuel max_wait s in
  let opening :=
    EvPopen "spotify"
      :: (if rec_verbose (rec s) then [EvLog DINFO StartingSpotifyClient] else [])
      ++ trace s in
  (exists later, trace (snd r) = later ++ opening) /\
  (popen env "spotify" = false -> popen env "/snap/bin/spotify" = false ->
   fst r = Ret false /\
   n_devices (snd r) = n_devices s /\
   trace (snd r) =
     EvLog DERROR FailedToStartSpotify :: EvPopen "/snap/bin/spotify" :: opening).
Proof.
  cbn zeta.
  unfold ensure_spotify_device_active, try_except, subprocess_Popen, bind,
    get_rec, time_time, when, log, emit, raise, ret.
  split.
  - destruct (rec_verbose (rec s)); cbn;
      destruct (popen env "spotify"); cbn;
      try (destruct (popen env "/snap/bin/spotify"); cbn);
      try (eexists [_; _]; reflexivity);
      match goal with
      | |- context [ensure_spotify_device_active_loop env fuel ?m ?st ?s2] =>
          destruct (ensure_spotify_device_active_loop_frame env fuel m st s2)
            as (_ & _ & _ & _ & new & Ht & _);
          cbn in Ht; rewrite Ht
      end;
      try (exists new; reflexivity);
      (exists (new ++ [EvPopen "/snap/bin/spotify"]);
       rewrite <- app_assoc; reflexivity).
  - intros H1 H2. rewrite H1. cbn.
    destruct (rec_verbose (rec s)); cbn; rewrite H2; cbn; repeat split.
Qed.

Lemma always_launches_then_polls_witness :
  fst (ensure_spotify_device_active
         (mkEnv nothing_playing (fun _ => Returned (Some ["desktop"]))
                (fun _ => Returned tt) (fun _ _ => 0) (fun _ => false)
                (fun _ => Exited 0) (fun _ => None) (fun _ _ => Killed))
         1 15 (fresh 500 false))
  = Ret false.
Proof.
  exact (proj1 (proj2 (always_launches_then_polls
                         (mkEnv nothing_playing (fun _ => Returned (Some ["desktop"]))
                                (fun _ => Returned tt) (fun _ _ => 0) (fun _ => false)
                                (fun _ => Exited 0) (fun _ => None) (fun _ _ => Killed))
                         1 15 (fresh 500 false))
                      eq_refl eq_refl)).
Defined.

(** ** Monitor: who writes the session *)

Ltac unfold_monitor :=
  unfold sleep_poll_interval, get_playback_state, try_except, current_playback,
    of_response, bind, time_time, get_mon, set_current_track, when, log, emit,
    time_sleep, advance, raise, out_of_fuel, ret.

(** Applies an induction hypothesis about [loop] at the state the goal
    runs it from. *)
Ltac use_IH IH :=
  match goal with
  | |- context [wait_for_track_start_loop _ _ ?u ?t ?st ?s2] =>
      specialize (IH u t st s2)
  | |- context [wait_for_position_reset_loop _ _ ?u ?t ?st ?s2] =>
      specialize (IH u t st s2)
  | |- context [monitor_until_track_change _ _ ?h ?s2] =>
      specialize (IH h s2)
  end;
  cbn in IH;
  repeat match goal with
         | H : mon_verbose _ = _ |- _ => rewrite H in IH
         end.

Lemma wait_for_track_start_loop_session (env : Env) (fuel : nat) :
  forall (expected_uri : string) (timeout start_time : Z) (s : St),
    let r := wait_for_track_start_loop env fuel expected_uri timeout start_time s in
    match fst r with
    | Ret true =>
        poll_interval (mon (snd r)) = poll_interval (mon s) /\
        mon_verbose (mon (snd r)) = mon_verbose (mon s) /\
        current_track_uri (mon (snd r)) = Some expected_uri /\
        exists tid, current_track_id (mon (snd r)) = Some tid
    | _ => mon (snd r) = mon s
    end.
Proof.
  induction fuel as [| fuel IH]; intros expected_uri timeout start_time s; cbn zeta.
  - reflexivity.
  - cbn [wait_for_track_start_loop]. unfold_monitor. cbn.
    repeat (break_match; cbn; try reflexivity; try discriminate);
      try (use_IH IH; exact IH).
    all: repeat split; eauto.
    all: match goal with
         | H : (_ && _)%bool = true |- _ =>
             apply andb_prop in H; destruct H as [H _];
             apply String.eqb_eq in H; congruence
         end.
Qed.

Lemma wait_for_position_reset_loop_session (env : Env) (fuel : nat) :
  forall (expected_uri : string) (max_wait start_time : Z) (s : St),
    mon (snd (wait_for_position_reset_loop env fuel expected_uri max_wait
                start_time s)) = mon s.
Proof.
  induction fuel as [| fuel IH]; intros expected_uri max_wait start_time s.
  - reflexivity.
  - cbn [wait_for_position_reset_loop]. unfold_monitor. cbn.
    repeat (break_match; cbn; try reflexivity; try discriminate);
      use_IH IH; exact IH.
Qed.

Lemma monitor_until_track_change_session (env : Env) (fuel : nat) :
  forall (on_change : option unit) (s : St),
    mon (snd (monitor_until_track_change env fuel on_change s)) = mon s.
Proof.
  induction fuel as [| fuel IH]; intros on_change s.
  - reflexivity.
  - cbn [monitor_until_track_change]. unfold_monitor. cbn.
    repeat (break_match; cbn; try reflexivity; try discriminate);
      use_IH IH; exact IH.
Qed.

(** C9: the monitor object changes only where [wait_for_track_start]
    returns [True], and there [current_track_uri] becomes the expected URI
    and [current_track_id] the id observed.  On every other exit of
    [wait_for_track_start] (a [False], an exception), and on every exit of
    [wait_for_position_reset], [get_remaining_time] and
    [monitor_until_track_change], whatever the latter returns, the
    monitor, and so both session fields, is as it was. *)
Theorem session_written_only_by_track_start (env : Env) (fuel : nat)
    (uri : string) (limit : Z) (on_change : option unit) (s : St) :
  let started := wait_for_track_start env fuel uri limit s in
  (fst started = Ret true ->
   current_track_uri (mon (snd started)) = Some uri /\
   exists tid, current_track_id (mon (snd started)) = Some tid) /\
  (fst started <> Ret true -> mon (snd started) = mon s) /\
  mon (snd (wait_for_position_reset env fuel uri limit s)) = mon s /\
  mon (snd (get_remaining_time env s)) = mon s /\
  mon (snd (monitor_until_track_change env fuel on_change s)) = mon s.
Proof.
  cbn zeta.
  pose proof (wait_for_track_start_loop_session env fuel uri limit (now s) s)
    as Hstart.
  cbn zeta in Hstart.
  unfold wait_for_track_start, wait_for_position_reset, bind, time_time.
  split; [ | split; [ | split; [ | split ] ] ].
  - intros Htrue. rewrite Htrue in Hstart. split; apply Hstart.
  - intros Hother.
    destruct (fst (wait_for_track_start_loop env fuel uri limit (now s) s))
      as [[|] | e |]; try exact Hstart.
    exfalso. apply Hother. reflexivity.
  - apply wait_for_position_reset_loop_session.
  - unfold get_remaining_time. unfold_monitor. cbn.
    repeat (break_match; cbn; try reflexivity).
  - apply monitor_until_track_change_session.
Qed.

Lemma session_written_only_by_track_start_witness :
  mon (snd (wait_for_track_start
              (world nothing_playing (Exited 0) None)
              5 "spotify:track:X" 1 (observing 500 "idY" "spotify:track:Y")))
  = mkMonitor 500 false (Some "idY") (Some "spotify:track:Y").
Proof.
  apply (proj1 (proj2 (session_written_only_by_track_start
                         (world nothing_playing (Exited 0) None)
                         5 "spotify:track:X" 1 None
                         (observing 500 "idY" "spotify:track:Y")))).
  vm_compute. discriminate.
Defined.

(** ** Monitor: waiting for the track to start ([wait_for_track_start]) *)

Lemma poll_time_ge (env : Env) (interval : Z) (n : nat) :
  0 <= interval ->
  (forall k, 0 <= latency env CurrentPlayback k) ->
  forall (k : nat) (t : Z), t <= poll_time env interval k t n.
Proof.
  intros Hint Hlat. induction n as [| n IH]; intros k t; cbn.
  - lia.
  - specialize (IH (S k) (t + latency env CurrentPlayback k + interval)).
    specialize (Hlat k). lia.
Qed.

(** One pass of the loop while the time is not up: it returns [True] on a
    poll that shows the track started, and otherwise goes round again
    after the call and one poll interval. *)
Lemma wait_for_track_start_loop_step (env : Env) (fuel : nat)
    (expected_uri : string) (timeout start_time : Z) (s : St) :
  now s - start_time < timeout * 1000 ->
  0 <= poll_interval (mon s) ->
  let k := n_playback s in
  if track_started expected_uri (sp_current_playback env k) then
    exists s' pb it,
      wait_for_track_start_loop env (S fuel) expected_uri timeout start_time s
        = (Ret true, s') /\
      n_playback s' = S k /\
      sp_current_playback env k = Returned (Some pb) /\
      pb_item pb = Some it /\
      current_track_id (mon s') = Some (item_id it) /\
      current_track_uri (mon s') = Some expected_uri
  else
    exists s2,
      wait_for_track_start_loop env (S fuel) expected_uri timeout start_time s
        = wait_for_track_start_loop env fuel expected_uri timeout start_time s2 /\
      now s2 = now s + latency env CurrentPlayback k + poll_interval (mon s) /\
      n_playback s2 = S k /\
      mon s2 = mon s.
Proof.
  intros Hguard Hpoll. cbn zeta.
  apply Z.ltb_lt in Hguard. apply Z.ltb_ge in Hpoll.
  cbn [wait_for_track_start_loop]. unfold_monitor. cbn.
  rewrite Hguard. unfold track_started, playing_item.
  destruct (sp_current_playback env (n_playback s)) as [[pb |] |]; cbn;
    [ destruct (pb_item pb) as [it |] eqn:Hitem; cbn | | ].
  - destruct ((item_uri it =? expected_uri)%string) eqn:Huri; cbn;
      [ destruct (get_is_playing pb); cbn;
        [ destruct (get_progress_ms pb <? 2000); cbn | ] | ].
    + apply String.eqb_eq in Huri. subst expected_uri.
      destruct (mon_verbose (mon s)); cbn;
        eexists; exists pb, it; repeat split; assumption.
    + destruct (mon_verbose (mon s)); cbn; rewrite Hpoll; cbn;
        eexists; (split; [ reflexivity | cbn; repeat split ]).
    + rewrite Hpoll. cbn. eexists. split; [ reflexivity | cbn; repeat split ].
    + rewrite Hpoll. cbn. eexists. split; [ reflexivity | cbn; repeat split ].
  - destruct (mon_verbose (mon s)); cbn; rewrite Hpoll; cbn;
      eexists; (split; [ reflexivity | cbn; repeat split ]).
  - destruct (mon_verbose (mon s)); cbn; rewrite Hpoll; cbn;
      eexists; (split; [ reflexivity | cbn; repeat split ]).
  - destruct (mon_verbose (mon s)) eqn:Hverbose; cbn; rewrite Hverbose; cbn;
      rewrite Hpoll; cbn;
      eexists; (split; [ reflexivity | cbn; repeat split ]).
Qed.

(** The pass that finds the time is up. *)
Lemma wait_for_track_start_loop_timeout (env : Env) (fuel : nat)
    (expected_uri : string) (timeout start_time : Z) (s : St) :
  timeout * 1000 <= now s - start_time ->
  exists s',
    wait_for_track_start_loop env (S fuel) expected_uri timeout start_time s
      = (Ret false, s') /\
    now s' = now s.
Proof.
  intros Hup. apply Z.ltb_ge in Hup.
  cbn [wait_for_track_start_loop]. unfold_monitor. cbn.
  rewrite Hup. cbn. eexists. split; reflexivity.
Qed.

(** What [wait_for_track_start] computes, for a positive poll interval
    and calls that take no negative time: with fuel for the whole
    timeout the loop returns, and it returns [True] exactly when one of
    the passes it begins before the time is up polls a snapshot that shows
    the track started. *)
Lemma wait_for_track_start_loop_spec (env : Env) (expected_uri : string)
    (timeout start_time : Z) :
  (forall k, 0 <= latency env CurrentPlayback k) ->
  forall (fuel : nat) (s : St),
    0 < poll_interval (mon s) ->
    Z.max 0 (timeout * 1000 - (now s - start_time)) < Z.of_nat fuel ->
    exists b s',
      wait_for_track_start_loop env fuel expected_uri timeout start_time s
        = (Ret b, s') /\
      (b = true <->
       exists n,
         poll_time env (poll_interval (mon s)) (n_playback s) (now s) n
           - start_time < timeout * 1000 /\
         track_started expected_uri
           (sp_current_playback env (n_playback s + n)) = true) /\
      (b = true ->
       current_track_uri (mon s') = Some expected_uri /\
       track_started expected_uri
         (sp_current_playback env (pred (n_playback s'))) = true /\
       exists pb it,
         sp_current_playback env (pred (n_playback s')) = Returned (Some pb) /\
         pb_item pb = Some it /\
         current_track_id (mon s') = Some (item_id it)) /\
      (b = false -> timeout * 1000 <= now s' - start_time).
Proof.
  intros Hlat. induction fuel as [| fuel IH]; intros s Hpoll Hfuel.
  - lia.
  - destruct (Z.lt_ge_cases (now s - start_time) (timeout * 1000))
      as [Hguard | Hup].
    + pose proof (wait_for_track_start_loop_step env fuel expected_uri timeout
                    start_time s Hguard (Z.lt_le_incl _ _ Hpoll)) as Hstep.
      cbn zeta in Hstep.
      destruct (track_started expected_uri
                  (sp_current_playback env (n_playback s))) eqn:Hhit.
      * destruct Hstep as (s' & pb & it & Hrun & Hk & Hresp & Hitem & Hid & Huri).
        exists true, s'. split; [ exact Hrun | ]. repeat split.
        -- intros _. exists 0%nat. cbn. rewrite Nat.add_0_r. split; [ lia | exact Hhit ].
        -- exact Huri.
        -- rewrite Hk. exact Hhit.
        -- exists pb, it. rewrite Hk. cbn. repeat split; assumption.
        -- discriminate.
      * destruct Hstep as (s2 & Hrun & Hnow & Hk & Hmon).
        pose proof (Hlat (n_playback s)) as Hlatk.
        destruct (IH s2) as (b & s' & Hrun2 & Hiff & Hsess & Htime).
        { rewrite Hmon. exact Hpoll. }
        { rewrite Hnow. lia. }
        exists b, s'. rewrite Hrun. split; [ exact Hrun2 | ].
        rewrite Hmon, Hnow, Hk in Hiff.
        split; [ | split; assumption ].
        rewrite Hiff. split.
        -- intros (n & Ht & Hn). exists (S n). cbn [poll_time].
           rewrite Nat.add_succ_r. split; assumption.
        -- intros ([| n] & Ht & Hn).
           ++ rewrite Nat.add_0_r in Hn. congruence.
           ++ exists n. cbn [poll_time] in Ht. rewrite Nat.add_succ_r in Hn.
              split; assumption.
    + destruct (wait_for_track_start_loop_timeout env fuel expected_uri timeout
                  start_time s Hup) as (s' & Hrun & Hnow).
      exists false, s'. split; [ exact Hrun | ]. split; [ split | split ].
      * discriminate.
      * intros (n & Ht & _).
        pose proof (poll_time_ge env (poll_interval (mon s)) n
                      (Z.lt_le_incl _ _ Hpoll) Hlat (n_playback s) (now s)).
        lia.
      * discriminate.
      * intros _. lia.
Qed.

Lemma track_started_iff (expected_uri : string)
    (r : Response (option Playback)) :
  track_started expected_uri r = true <-> shows_track_start expected_uri r.
Proof.
  unfold track_started, shows_track_start, playing_item, get_is_playing,
    get_progress_ms.
  split.
  - destruct r as [[pb |] |]; try discriminate.
    destruct (pb_item pb) as [it |] eqn:Hitem; try discriminate.
    intros Hall.
    apply andb_prop in Hall. destruct Hall as [Hall Hprogress].
    apply andb_prop in Hall. destruct Hall as [Huri Hplaying].
    apply String.eqb_eq in Huri. apply Z.ltb_lt in Hprogress.
    exists pb, it. repeat split; try assumption.
    + destruct (pb_is_playing pb) as [[|] |]; try discriminate. reflexivity.
    + destruct (pb_progress_ms pb); [ exact Hprogress | exact I ].
  - intros (pb & it & -> & Hitem & Huri & Hplaying & Hprogress).
    rewrite Hitem, Hplaying. subst expected_uri. rewrite String.eqb_refl.
    cbn. apply Z.ltb_lt.
    destruct (pb_progress_ms pb); [ exact Hprogress | lia ].
Qed.

(** C7: for a positive poll interval and calls that take no negative
    time, [wait_for_track_start] returns (given fuel for the whole
    timeout), and it returns [True] exactly when some pass begun before
    [timeout] seconds have gone by polls a snapshot whose URI is the
    expected one, whose [is_playing] is true and whose progress is below
    2000 ms; it then has stored that snapshot's id and URI in the monitor.
    On the polls [absent, absent, X playing at 500 ms] it returns [True].
    It returns [False] at the timeout when X stays at 5000 ms, when X is
    at 500 ms but paused, when X is at 500 ms with no [is_playing] in the
    snapshot, and when another track plays at 500 ms. *)
Theorem wait_for_track_start_true_iff :
  (forall (env : Env) (expected_uri : string) (timeout : Z) (s : St),
     0 < poll_interval (mon s) ->
     (forall k, 0 <= latency env CurrentPlayback k) ->
     exists fuel0, forall fuel, (fuel0 <= fuel)%nat ->
       exists b s',
         wait_for_track_start env fuel expected_uri timeout s = (Ret b, s') /\
         (b = true <->
          exists n,
            poll_time env (poll_interval (mon s)) (n_playback s) (now s) n - now s
              < timeout * 1000 /\
            shows_track_start expected_uri
              (sp_current_playback env (n_playback s + n))) /\
         (b = true ->
          current_track_uri (mon s') = Some expected_uri /\
          exists pb it,
            sp_current_playback env (pred (n_playback s')) = Returned (Some pb) /\
            pb_item pb = Some it /\
            item_uri it = expected_uri /\
            pb_is_playing pb = Some true /\
            current_track_id (mon s') = Some (item_id it))) /\
  (let r := wait_for_track_start
              (world (scripted [Returned None; Returned None]
                               (snapshot "spotify:track:X" true 500 200000))
                     (Exited 0) None)
              100 "spotify:track:X" 30 (fresh 500 false) in
   fst r = Ret true /\
   current_track_id (mon (snd r)) = Some "id" /\
   current_track_uri (mon (snd r)) = Some "spotify:track:X" /\
   n_playback (snd r) = 3%nat) /\
  (let ends_false last :=
     let r := wait_for_track_start
                (world (scripted [Returned None; Returned None] last)
                       (Exited 0) None)
                100 "spotify:track:X" 30 (fresh 500 false) in
     fst r = Ret false /\
     30 * 1000 <= now (snd r) /\
     current_track_id (mon (snd r)) = None /\
     current_track_uri (mon (snd r)) = None in
   ends_false (snapshot "spotify:track:X" true 5000 200000) /\
   ends_false (snapshot "spotify:track:X" false 500 200000) /\
   ends_false (Returned (Some (mkPlayback
                                 (Some (mkItem "spotify:track:X" "id" 200000))
                                 None (Some 500)))) /\
   ends_false (snapshot "spotify:track:Y" true 500 200000)).
Proof.
  split; [ | split; vm_compute; repeat split; intros H; discriminate H ].
  intros env expected_uri timeout s Hpoll Hlat.
  exists (S (Z.to_nat (Z.max 0 (timeout * 1000)))). intros fuel Hfuel.
  destruct (wait_for_track_start_loop_spec env expected_uri timeout (now s)
              Hlat fuel s Hpoll) as (b & s' & Hrun & Hiff & Hsess & _).
  { lia. }
  exists b, s'. unfold wait_for_track_start, bind, time_time.
  split; [ exact Hrun | split ].
  - rewrite Hiff. split; intros (n & Htime & Hshows); exists n;
      (split; [ exact Htime | apply track_started_iff; exact Hshows ]).
  - intros Hb. destruct (Hsess Hb) as (Huri & Hlast & pb & it & Hresp & Hitem & Hid).
    split; [ exact Huri | ].
    apply track_started_iff in Hlast.
    destruct Hlast as (pb' & it' & Hresp' & Hitem' & Huri' & Hplaying' & _).
    assert (pb' = pb) by congruence. subst pb'.
    assert (it' = it) by congruence. subst it'.
    exists pb, it. repeat split; assumption.
Qed.

Lemma wait_for_track_start_true_iff_witness :
  exists fuel0, forall fuel, (fuel0 <= fuel)%nat ->
    fst (wait_for_track_start
           (world (scripted [Returned None; Returned None]
                            (snapshot "spotify:track:X" true 500 200000))
                  (Exited 0) None)
           fuel "spotify:track:X" 30 (fresh 500 false)) = Ret true.
Proof.
  destruct (proj1 wait_for_track_start_true_iff
              (world (scripted [Returned None; Returned None]
                               (snapshot "spotify:track:X" true 500 200000))
                     (Exited 0) None)
              "spotify:track:X" 30 (fresh 500 false))
    as [fuel0 Hfuel0].
  - simpl. lia.
  - intros k. simpl. lia.
  - exists fuel0. intros fuel Hfuel.
    destruct (Hfuel0 fuel Hfuel) as (b & s' & Hrun & Hiff & _).
    rewrite Hrun. simpl. f_equal. apply Hiff.
    exists 2%nat. split; [ vm_compute; reflexivity | ].
    exists (mkPlayback (Some (mkItem "spotify:track:X" "id" 200000))
                       (Some true) (Some 500)),
           (mkItem "spotify:track:X" "id" 200000).
    repeat split; simpl; lia.
Defined.

(** ** Monitor: what a failed fetch does to each loop *)

(** C4, as stated, fails for [monitor_until_track_change]: with the track
    X being watched, a first fetch that fails makes it return [None] after
    that one poll, where the same fetch answered (X still playing, then Y)
    makes it go on and return Y. *)
Lemma one_failed_fetch_ends_monitoring :
  let first_then first k :=
    match k with
    | O => first
    | S k' => scripted [snapshot "spotify:track:X" true 2000 200000]
                       (snapshot "spotify:track:Y" true 0 180000) k'
    end in
  let go first :=
    monitor_until_track_change (world (first_then first) (Exited 0) None)
      10 None (observing 500 "idX" "spotify:track:X") in
  fst (go Failed) = Ret None /\
  n_playback (snd (go Failed)) = 1%nat /\
  fst (go (snapshot "spotify:track:X" true 1000 200000))
    = Ret (Some "spotify:track:Y").
Proof. vm_compute. repeat split; reflexivity. Qed.

(** [wait_for_position_reset] returns; it returns [True] only on a poll
    that shows the position reset, and [False] only once the time is up. *)
Lemma wait_for_position_reset_loop_total (env : Env) (expected_uri : string)
    (max_wait start_time : Z) :
  (forall k, 0 <= latency env CurrentPlayback k) ->
  forall (fuel : nat) (s : St),
    0 < poll_interval (mon s) ->
    Z.max 0 (max_wait * 1000 - (now s - start_time)) < Z.of_nat fuel ->
    exists b s',
      wait_for_position_reset_loop env fuel expected_uri max_wait start_time s
        = (Ret b, s') /\
      (b = true ->
       position_reset expected_uri
         (sp_current_playback env (pred (n_playback s'))) = true) /\
      (b = false -> max_wait * 1000 <= now s' - start_time).
Proof.
  intros Hlat. induction fuel as [| fuel IH]; intros s Hpoll Hfuel.
  - lia.
  - pose proof (Hlat (n_playback s)) as Hlatk.
    cbn [wait_for_position_reset_loop]. unfold_monitor. cbn.
    repeat (break_match; cbn; try discriminate);
      try (eexists _, _;
           split; [ reflexivity | split; [ intros _ | discriminate ] ];
           cbn; unfold position_reset;
           repeat match goal with
                  | H : _ = _ |- _ => rewrite H
                  end;
           reflexivity);
      repeat match goal with
             | H : (_ <? _) = true |- _ => apply Z.ltb_lt in H
             | H : (_ <? _) = false |- _ => apply Z.ltb_ge in H
             end;
      try lia;
      try (eexists _, _;
           split; [ reflexivity | split; [ discriminate | cbn; intros; lia ] ]);
      apply IH; cbn; lia.
Qed.

(** C4, amended: [get_playback_state] turns a failed fetch into [None]
    and never raises.  In [wait_for_track_start] and
    [wait_for_position_reset] (positive poll interval, calls that take no
    negative time, fuel for the whole timeout) failed fetches are
    absorbed: the call returns, [True] only on a poll that was answered
    with a snapshot meeting its condition, [False] only once the timeout
    has gone by.  In [monitor_until_track_change] a failed fetch counts as
    playback having stopped: the call returns [None] after that poll. *)
Theorem fetch_failure_absorbed_by_timed_loops :
  (forall (env : Env) (s : St),
     exists r s',
       get_playback_state env s = (Ret r, s') /\
       (sp_current_playback env (n_playback s) = Failed -> r = None)) /\
  (forall (env : Env) (expected_uri : string) (limit : Z) (s : St),
     0 < poll_interval (mon s) ->
     (forall k, 0 <= latency env CurrentPlayback k) ->
     exists fuel0, forall fuel, (fuel0 <= fuel)%nat ->
       (exists b s',
          wait_for_track_start env fuel expected_uri limit s = (Ret b, s') /\
          (b = true ->
           track_started expected_uri
             (sp_current_playback env (pred (n_playback s'))) = true) /\
          (b = false -> limit * 1000 <= now s' - now s)) /\
       (exists b s',
          wait_for_position_reset env fuel expected_uri limit s = (Ret b, s') /\
          (b = true ->
           position_reset expected_uri
             (sp_current_playback env (pred (n_playback s'))) = true) /\
          (b = false -> limit * 1000 <= now s' - now s))) /\
  (forall (env : Env) (fuel : nat) (on_change : option unit) (s : St),
     sp_current_playback env (n_playback s) = Failed ->
     fst (monitor_until_track_change env (S fuel) on_change s) = Ret None /\
     n_playback (snd (monitor_until_track_change env (S fuel) on_change s))
       = S (n_playback s)).
Proof.
  split; [ | split ].
  - intros env s. unfold get_playback_state. unfold_monitor.
    destruct (sp_current_playback env (n_playback s)) as [r |]; cbn.
    + eexists _, _. split; [ reflexivity | discriminate ].
    + destruct (mon_verbose (mon s)); cbn;
        (eexists _, _; split; [ reflexivity | reflexivity ]).
  - intros env expected_uri limit s Hpoll Hlat.
    exists (S (Z.to_nat (Z.max 0 (limit * 1000)))). intros fuel Hfuel.
    unfold wait_for_track_start, wait_for_position_reset, bind, time_time.
    split.
    + destruct (wait_for_track_start_loop_spec env expected_uri limit (now s)
                  Hlat fuel s Hpoll) as (b & s' & Hrun & _ & Hsess & Htime);
        [ lia | ].
      exists b, s'. split; [ exact Hrun | split; [ | exact Htime ] ].
      intros Hb. apply (Hsess Hb).
    + destruct (wait_for_position_reset_loop_total env expected_uri limit
                  (now s) Hlat fuel s Hpoll) as (b & s' & Hrun & Htrue & Htime);
        [ lia | ].
      exists b, s'. split; [ exact Hrun | split; assumption ].
  - intros env fuel on_change s Hfail.
    cbn [monitor_until_track_change]. unfold_monitor.
    rewrite Hfail. cbn.
    destruct (mon_verbose (mon s)) eqn:Hverbose; cbn; rewrite ?Hverbose; cbn;
      split; reflexivity.
Qed.

Lemma fetch_failure_absorbed_by_timed_loops_witness :
  (exists fuel0, forall fuel, (fuel0 <= fuel)%nat ->
     exists b s',
       wait_for_position_reset (world (fun _ => Failed) (Exited 0) None)
         fuel "spotify:track:X" 5 (fresh 500 false) = (Ret b, s') /\
       (b = false -> 5 * 1000 <= now s' - 0)) /\
  fst (monitor_until_track_change (world (fun _ => Failed) (Exited 0) None)
         1 None (observing 500 "idX" "spotify:track:X")) = Ret None.
Proof.
  split.
  - destruct (proj1 (proj2 fetch_failure_absorbed_by_timed_loops)
                (world (fun _ => Failed) (Exited 0) None)
                "spotify:track:X" 5 (fresh 500 false))
      as [fuel0 Hfuel0].
    + simpl. lia.
    + intros k. simpl. lia.
    + exists fuel0. intros fuel Hfuel.
      destruct (proj2 (Hfuel0 fuel Hfuel)) as (b & s' & Hrun & _ & Htime).
      exists b, s'. split; assumption.
  - apply (proj2 (proj2 fetch_failure_absorbed_by_timed_loops)
             (world (fun _ => Failed) (Exited 0) None)
             0%nat None (observing 500 "idX" "spotify:track:X")).
    reflexivity.
Defined.

(** ** Starter: how many play commands ([start_playback_web_api]) *)

(** Device activation issues no play command and fetches no snapshot. *)
Lemma ensure_spotify_device_active_frame (env : Env) (fuel : nat)
    (max_wait : Z) (s : St) :
  let s' := snd (ensure_spotify_device_active env fuel max_wait s) in
  n_playback s' = n_playback s /\ n_start s' = n_start s /\
  issuances s' = issuances s.
Proof.
  cbn zeta.
  unfold ensure_spotify_device_active, try_except, subprocess_Popen, bind,
    get_rec, time_time, when, log, emit, raise, ret.
  cbn.
  repeat (break_match; cbn; try discriminate);
    try (repeat split; reflexivity);
    match goal with
    | |- context [ensure_spotify_device_active_loop env fuel ?m ?st ?s2] =>
        destruct (ensure_spotify_device_active_loop_frame env fuel m st s2)
          as (Hp & Hs & _ & _ & new & Ht & Hf);
        cbn in Hp, Hs, Ht;
        rewrite Hp, Hs; repeat split;
        unfold issuances; rewrite Ht, filter_app, Hf; reflexivity
    end.
Qed.

(** One pass of the retry loop issues exactly one play command, and ends
    in a return only when its fetch verified the track. *)
Lemma start_playback_attempt_issues_one (env : Env) (uri : string)
    (attempt max_retries : Z) (s : St) :
  let r := start_playback_attempt env uri attempt max_retries s in
  issuances (snd r) = S (issuances s) /\
  n_start (snd r) = S (n_start s) /\
  ((fst r = Ret (FlowReturn true) /\
    verified uri (sp_current_playback env (n_playback s)) = true) \/
   fst r = Ret FlowContinue \/ fst r = Ret FlowNext).
Proof.
  cbn zeta.
  unfold start_playback_attempt, try_except, start_playback, current_playback,
    of_response, bind, get_rec, when, log, emit, time_sleep, advance, raise, ret,
    verified, issuances.
  cbn.
  repeat (break_match; cbn in *; try discriminate);
    repeat split; auto.
Qed.

(** A pass whose play command is accepted makes one fetch, and returns
    [True] when that fetch verifies the track. *)
Lemma start_playback_attempt_accepted (env : Env) (uri : string)
    (attempt max_retries : Z) (s : St) :
  sp_start_playback env (n_start s) = Returned tt ->
  let r := start_playback_attempt env uri attempt max_retries s in
  n_playback (snd r) = S (n_playback s) /\
  (verified uri (sp_current_playback env (n_playback s)) = true ->
   fst r = Ret (FlowReturn true)).
Proof.
  intros Haccepted. cbn zeta.
  unfold start_playback_attempt, try_except, start_playback, current_playback,
    of_response, bind, get_rec, when, log, emit, time_sleep, advance, raise, ret,
    verified.
  destruct (rec_verbose (rec s)); cbn; rewrite Haccepted; cbn;
    repeat (break_match; cbn in *; try discriminate);
    split; auto; discriminate.
Qed.

(** When no fetch ever verifies the track, every pass is made. *)
Lemma start_playback_attempts_never_verified (env : Env) (uri : string) :
  (forall k, verified uri (sp_current_playback env k) = false) ->
  forall (todo : nat) (attempt max_retries : Z) (s : St),
    let r := start_playback_attempts env todo uri attempt max_retries s in
    fst r = Ret false /\ issuances (snd r) = (issuances s + todo)%nat.
Proof.
  intros Hnever. induction todo as [| todo IH]; intros attempt max_retries s;
    cbn zeta.
  - cbn. unfold issuances. cbn. split; [ reflexivity | lia ].
  - cbn [start_playback_attempts]. unfold bind.
    destruct (start_playback_attempt_issues_one env uri attempt max_retries s)
      as (Hone & _ & Hflow).
    destruct (start_playback_attempt env uri attempt max_retries s) as [o s1].
    cbn in Hone, Hflow.
    destruct Hflow as [[_ Hverified] | [-> | ->]].
    + rewrite Hnever in Hverified. discriminate Hverified.
    + destruct (IH (attempt + 1) max_retries s1) as [Hret Hcount].
      split; [ exact Hret | rewrite Hcount, Hone; lia ].
    + unfold time_sleep, bind, emit, advance, ret.
      destruct (attempt <? max_retries - 1); cbn;
        match goal with
        | |- context [start_playback_attempts env todo uri ?a ?m ?s2] =>
            destruct (IH a m s2) as [Hret Hcount]
        end;
        (split; [ exact Hret | rewrite Hcount; unfold issuances in *; cbn; lia ]).
Qed.

Lemma wrong_track_is_not_verified (uri : string) (pb : Playback) (it : Item) :
  pb_item pb = Some it ->
  item_uri it <> uri ->
  verified uri (Returned (Some pb)) = false.
Proof.
  intros Hitem Hwrong. unfold verified, playing_item. rewrite Hitem.
  apply String.eqb_neq in Hwrong. rewrite Hwrong. reflexivity.
Qed.

(** A pass whose command is accepted and whose fetch verifies the track
    is the last one. *)
Lemma start_playback_attempts_verified_now (env : Env) (uri : string)
    (todo : nat) (attempt max_retries : Z) (s : St) :
  sp_start_playback env (n_start s) = Returned tt ->
  verified uri (sp_current_playback env (n_playback s)) = true ->
  let r := start_playback_attempts env (S todo) uri attempt max_retries s in
  fst r = Ret true /\ issuances (snd r) = S (issuances s).
Proof.
  intros Haccepted Hverified. cbn zeta.
  cbn [start_playback_attempts]. unfold bind.
  destruct (start_playback_attempt_issues_one env uri attempt max_retries s)
    as (Hone & _ & _).
  destruct (start_playback_attempt_accepted env uri attempt max_retries s
              Haccepted) as (_ & Hreturn).
  specialize (Hreturn Hverified).
  destruct (start_playback_attempt env uri attempt max_retries s) as [o s1].
  cbn in Hone, Hreturn. subst o. cbn. split; [ reflexivity | exact Hone ].
Qed.

(** C8: once a device is there, [start_playback_web_api] with
    [max_retries = 3] issues exactly 3 play commands and returns [False]
    when every verification fetch shows another track; and when both
    commands are accepted, the first fetch does not verify the track and
    the second does, it issues exactly 2 and returns [True]. *)
Theorem start_playback_issuances (env : Env) (fuel : nat) (uri : string)
    (s : St) :
  fst (ensure_spotify_device_active env fuel 15 s) = Ret true ->
  let r := start_playback_web_api env fuel uri 3 s in
  ((forall k, exists pb it,
       sp_current_playback env k = Returned (Some pb) /\
       pb_item pb = Some it /\ item_uri it <> uri) ->
   fst r = Ret false /\ issuances (snd r) = (issuances s + 3)%nat) /\
  (sp_start_playback env (n_start s) = Returned tt ->
   sp_start_playback env (S (n_start s)) = Returned tt ->
   verified uri (sp_current_playback env (n_playback s)) = false ->
   verified uri (sp_current_playback env (S (n_playback s))) = true ->
   fst r = Ret true /\ issuances (snd r) = (issuances s + 2)%nat).
Proof.
  intros Hactive. cbn zeta.
  unfold start_playback_web_api, bind.
  destruct (ensure_spotify_device_active_frame env fuel 15 s)
    as (Hplayback & Hstart & Hissued).
  destruct (ensure_spotify_device_active env fuel 15 s) as [o s1].
  cbn in Hactive, Hplayback, Hstart, Hissued. subst o. cbn [negb].
  change (Z.to_nat 3) with 3%nat.
  rewrite <- Hplayback, <- Hstart, <- Hissued. clear Hplayback Hstart Hissued s.
  split.
  - intros Hwrong.
    apply (start_playback_attempts_never_verified env uri).
    intros k. destruct (Hwrong k) as (pb & it & -> & Hitem & Hother).
    exact (wrong_track_is_not_verified uri pb it Hitem Hother).
  - intros Hfirst Hsecond Hnot Hyes.
    change (start_playback_attempts env 3 uri 0 3 s1)
      with ((flow <- start_playback_attempt env uri 0 3 ;;
             match flow with
             | FlowReturn b => ret b
             | FlowContinue => start_playback_attempts env 2 uri (0 + 1) 3
             | FlowNext =>
                 (if 0 <? 3 - 1 then time_sleep 1000 else ret tt) ;;
                 start_playback_attempts env 2 uri (0 + 1) 3
             end) s1).
    unfold bind.
    destruct (start_playback_attempt_issues_one env uri 0 3 s1)
      as (Hone & Hn & Hflow).
    destruct (start_playback_attempt_accepted env uri 0 3 s1 Hfirst)
      as (Hfetched & _).
    destruct (start_playback_attempt env uri 0 3 s1) as [o s2].
    cbn in Hone, Hn, Hflow, Hfetched.
    destruct Hflow as [[_ Hverified] | [-> | ->]].
    + congruence.
    + destruct (start_playback_attempts_verified_now env uri 1 (0 + 1) 3 s2)
        as [Hret Hcount].
      * rewrite Hn. exact Hsecond.
      * rewrite Hfetched. exact Hyes.
      * split; [ exact Hret | ].
        transitivity (S (issuances s2)); [ exact Hcount | rewrite Hone; lia ].
    + unfold time_sleep, bind, emit, advance, ret.
      cbn -[start_playback_attempts].
      match goal with
      | |- context [start_playback_attempts env 2 uri ?a ?m ?s3] =>
          destruct (start_playback_attempts_verified_now env uri 1 a m s3)
            as [Hret Hcount]
      end.
      * cbn. rewrite Hn. exact Hsecond.
      * cbn. rewrite Hfetched. exact Hyes.
      * split; [ exact Hret | ].
        rewrite Hcount. unfold issuances in *. cbn. lia.
Qed.

Lemma start_playback_issuances_witness :
  let always_y :=
    world (fun _ => snapshot "spotify:track:Y" true 0 200000) (Exited 0) None in
  let second_time :=
    world (scripted [snapshot "spotify:track:Y" true 0 200000]
                    (snapshot "spotify:track:X" true 0 200000))
          (Exited 0) None in
  (fst (start_playback_web_api always_y 1 "spotify:track:X" 3 (fresh 500 false))
     = Ret false /\
   issuances (snd (start_playback_web_api always_y 1 "spotify:track:X" 3
                     (fresh 500 false))) = 3%nat) /\
  (fst (start_playback_web_api second_time 1 "spotify:track:X" 3 (fresh 500 false))
     = Ret true /\
   issuances (snd (start_playback_web_api second_time 1 "spotify:track:X" 3
                     (fresh 500 false))) = 2%nat).
Proof.
  cbn zeta. split.
  - apply (proj1 (start_playback_issuances
                    (world (fun _ => snapshot "spotify:track:Y" true 0 200000)
                           (Exited 0) None)
                    1 "spotify:track:X" (fresh 500 false) eq_refl)).
    intros k.
    exists (mkPlayback (Some (mkItem "spotify:track:Y" "id" 200000))
                       (Some true) (Some 0)),
           (mkItem "spotify:track:Y" "id" 200000).
    repeat split. simpl. discriminate.
  - apply (proj2 (start_playback_issuances
                    (world (scripted [snapshot "spotify:track:Y" true 0 200000]
                                     (snapshot "spotify:track:X" true 0 200000))
                           (Exited 0) None)
                    1 "spotify:track:X" (fresh 500 false) eq_refl));
      reflexivity.
Defined.

(** * Further properties *)

(** ** Monitor: waiting for the position reset ([wait_for_position_reset]) *)

(** One pass of the loop while the time is not up. *)
Lemma wait_for_position_reset_loop_step (env : Env) (fuel : nat)
    (expected_uri : string) (max_wait start_time : Z) (s : St) :
  now s - start_time < max_wait * 1000 ->
  0 <= poll_interval (mon s) ->
  let k := n_playback s in
  if position_reset expected_uri (sp_current_playback env k) then
    exists s',
      wait_for_position_reset_loop env (S fuel) expected_uri max_wait start_time s
        = (Ret true, s') /\
      n_playback s' = S k /\
      now s' = now s + latency env CurrentPlayback k /\
      slept (trace s') = slept (trace s)
  else
    exists s2,
      wait_for_position_reset_loop env (S fuel) expected_uri max_wait start_time s
        = wait_for_position_reset_loop env fuel expected_uri max_wait start_time s2 /\
      now s2 = now s + latency env CurrentPlayback k + poll_interval (mon s) /\
      n_playback s2 = S k /\
      mon s2 = mon s.
Proof.
  intros Hguard Hpoll. cbn zeta.
  apply Z.ltb_lt in Hguard. apply Z.ltb_ge in Hpoll.
  cbn [wait_for_position_reset_loop]. unfold_monitor. cbn.
  rewrite Hguard. unfold position_reset, playing_item.
  destruct (sp_current_playback env (n_playback s)) as [[pb |] |]; cbn;
    [ destruct (pb_item pb) as [it |]; cbn;
      [ destruct ((item_uri it =? expected_uri)%string); cbn;
        [ destruct (get_progress_ms pb <? 1000); cbn | ] | ] | | ];
    destruct (mon_verbose (mon s)) eqn:Hverbose; cbn;
    rewrite ?Hverbose, ?Hpoll; cbn; rewrite ?Hpoll; cbn;
    eexists; (split; [ reflexivity | cbn; repeat split ]).
Qed.

Lemma wait_for_position_reset_loop_timeout (env : Env) (fuel : nat)
    (expected_uri : string) (max_wait start_time : Z) (s : St) :
  max_wait * 1000 <= now s - start_time ->
  exists s',
    wait_for_position_reset_loop env (S fuel) expected_uri max_wait start_time s
      = (Ret false, s') /\
    now s' = now s /\ n_playback s' = n_playback s /\
    slept (trace s') = slept (trace s).
Proof.
  intros Hup. apply Z.ltb_ge in Hup.
  cbn [wait_for_position_reset_loop]. unfold_monitor. cbn.
  rewrite Hup. cbn. eexists. repeat split.
Qed.

Lemma wait_for_position_reset_loop_spec (env : Env) (expected_uri : string)
    (max_wait start_time : Z) :
  (forall k, 0 <= latency env CurrentPlayback k) ->
  forall (fuel : nat) (s : St),
    0 < poll_interval (mon s) ->
    Z.max 0 (max_wait * 1000 - (now s - start_time)) < Z.of_nat fuel ->
    exists b s',
      wait_for_position_reset_loop env fuel expected_uri max_wait start_time s
        = (Ret b, s') /\
      (b = true <->
       exists n,
         poll_time env (poll_interval (mon s)) (n_playback s) (now s) n
           - start_time < max_wait * 1000 /\
         position_reset expected_uri
           (sp_current_playback env (n_playback s + n)) = true).
Proof.
  intros Hlat. induction fuel as [| fuel IH]; intros s Hpoll Hfuel.
  - lia.
  - destruct (Z.lt_ge_cases (now s - start_time) (max_wait * 1000))
      as [Hguard | Hup].
    + pose proof (wait_for_position_reset_loop_step env fuel expected_uri
                    max_wait start_time s Hguard (Z.lt_le_incl _ _ Hpoll))
        as Hstep.
      cbn zeta in Hstep.
      destruct (position_reset expected_uri
                  (sp_current_playback env (n_playback s))) eqn:Hhit.
      * destruct Hstep as (s' & Hrun & _).
        exists true, s'. split; [ exact Hrun | ]. split; [ | reflexivity ].
        intros _. exists 0%nat. cbn. rewrite Nat.add_0_r.
        split; [ lia | exact Hhit ].
      * destruct Hstep as (s2 & Hrun & Hnow & Hk & Hmon).
        pose proof (Hlat (n_playback s)) as Hlatk.
        destruct (IH s2) as (b & s' & Hrun2 & Hiff).
        { rewrite Hmon. exact Hpoll. }
        { rewrite Hnow. lia. }
        exists b, s'. rewrite Hrun. split; [ exact Hrun2 | ].
        rewrite Hmon, Hnow, Hk in Hiff. rewrite Hiff. split.
        -- intros (n & Ht & Hn). exists (S n). cbn [poll_time].
           rewrite Nat.add_succ_r. split; assumption.
        -- intros ([| n] & Ht & Hn).
           ++ rewrite Nat.add_0_r in Hn. congruence.
           ++ exists n. cbn [poll_time] in Ht. rewrite Nat.add_succ_r in Hn.
              split; assumption.
    + destruct (wait_for_position_reset_loop_timeout env fuel expected_uri
                  max_wait start_time s Hup) as (s' & Hrun & _).
      exists false, s'. split; [ exact Hrun | ]. split.
      * discriminate.
      * intros (n & Ht & _).
        pose proof (poll_time_ge env (poll_interval (mon s)) n
                      (Z.lt_le_incl _ _ Hpoll) Hlat (n_playback s) (now s)).
        lia.
Qed.

Lemma position_reset_iff (expected_uri : string)
    (r : Response (option Playback)) :
  position_reset expected_uri r = true <-> shows_position_reset expected_uri r.
Proof.
  unfold position_reset, shows_position_reset, playing_item, get_progress_ms.
  split.
  - destruct r as [[pb |] |]; try discriminate.
    destruct (pb_item pb) as [it |] eqn:Hitem; try discriminate.
    intros Hall. apply andb_prop in Hall. destruct Hall as [Huri Hprogress].
    apply String.eqb_eq in Huri. apply Z.ltb_lt in Hprogress.
    exists pb, it. repeat split; try assumption.
    destruct (pb_progress_ms pb); [ exact Hprogress | exact I ].
  - intros (pb & it & -> & Hitem & Huri & Hprogress).
    rewrite Hitem. subst expected_uri. rewrite String.eqb_refl.
    cbn. apply Z.ltb_lt.
    destruct (pb_progress_ms pb); [ exact Hprogress | lia ].
Qed.

(** X1: for a positive poll interval and calls that take no negative
    time, [wait_for_position_reset] returns, and it returns [True] exactly
    when some pass begun before [max_wait] seconds have gone by polls a
    snapshot with the expected URI and less than 1000 ms of progress;
    [is_playing] is not looked at.  So X at 1500 ms until the time is up
    gives [False], X at 200 ms gives [True], paused or not, and another
    track at 200 ms gives [False]. *)
Theorem wait_for_position_reset_true_iff :
  (forall (env : Env) (expected_uri : string) (max_wait : Z) (s : St),
     0 < poll_interval (mon s) ->
     (forall k, 0 <= latency env CurrentPlayback k) ->
     exists fuel0, forall fuel, (fuel0 <= fuel)%nat ->
       exists b s',
         wait_for_position_reset env fuel expected_uri max_wait s = (Ret b, s') /\
         (b = true <->
          exists n,
            poll_time env (poll_interval (mon s)) (n_playback s) (now s) n - now s
              < max_wait * 1000 /\
            shows_position_reset expected_uri
              (sp_current_playback env (n_playback s + n)))) /\
  (let result answer :=
     fst (wait_for_position_reset
            (world (fun _ => answer) (Exited 0) None)
            50 "spotify:track:X" 5 (fresh 500 false)) in
   result (snapshot "spotify:track:X" true 1500 200000) = Ret false /\
   result (snapshot "spotify:track:X" true 200 200000) = Ret true /\
   result (snapshot "spotify:track:X" false 200 200000) = Ret true /\
   result (snapshot "spotify:track:Y" true 200 200000) = Ret false).
Proof.
  split; [ | vm_compute; repeat split ].
  intros env expected_uri max_wait s Hpoll Hlat.
  exists (S (Z.to_nat (Z.max 0 (max_wait * 1000)))). intros fuel Hfuel.
  unfold wait_for_position_reset, bind, time_time.
  destruct (wait_for_position_reset_loop_spec env expected_uri max_wait (now s)
              Hlat fuel s Hpoll) as (b & s' & Hrun & Hiff); [ lia | ].
  exists b, s'. split; [ exact Hrun | ].
  rewrite Hiff. split; intros (n & Htime & Hshows); exists n;
    (split; [ exact Htime | apply position_reset_iff; exact Hshows ]).
Qed.

Lemma wait_for_position_reset_true_iff_witness :
  exists fuel0, forall fuel, (fuel0 <= fuel)%nat ->
    fst (wait_for_position_reset
           (world (scripted [snapshot "spotify:track:X" false 1500 200000]
                            (snapshot "spotify:track:X" false 200 200000))
                  (Exited 0) None)
           fuel "spotify:track:X" 5 (fresh 500 false)) = Ret true.
Proof.
  destruct (proj1 wait_for_position_reset_true_iff
              (world (scripted [snapshot "spotify:track:X" false 1500 200000]
                               (snapshot "spotify:track:X" false 200 200000))
                     (Exited 0) None)
              "spotify:track:X" 5 (fresh 500 false))
    as [fuel0 Hfuel0].
  - simpl. lia.
  - intros k. simpl. lia.
  - exists fuel0. intros fuel Hfuel.
    destruct (Hfuel0 fuel Hfuel) as (b & s' & Hrun & Hiff).
    rewrite Hrun. simpl. f_equal. apply Hiff.
    exists 1%nat. split; [ vm_compute; reflexivity | ].
    exists (mkPlayback (Some (mkItem "spotify:track:X" "id" 200000))
                       (Some false) (Some 200)),
           (mkItem "spotify:track:X" "id" 200000).
    repeat split; simpl; lia.
Defined.


Lemma verified_iff (uri : string) (r : Response (option Playback)) :
  verified uri r = true <-> shows_track_playing uri r.
Proof.
  unfold verified, shows_track_playing, playing_item, get_is_playing.
  split.
  - destruct r as [[pb |] |]; try discriminate.
    destruct (pb_item pb) as [it |] eqn:Hitem; try discriminate.
    intros Hall. apply andb_prop in Hall. destruct Hall as [Huri Hplaying].
    apply String.eqb_eq in Huri.
    exists pb, it. repeat split; try assumption.
    destruct (pb_is_playing pb) as [[|] |]; try discriminate. reflexivity.
  - intros (pb & it & -> & Hitem & Huri & Hplaying).
    rewrite Hitem, Hplaying. subst uri. rewrite String.eqb_refl. reflexivity.
Qed.


(** ** Monitor: change detection ([monitor_until_track_change]) *)

(** One pass: on a poll that shows the watched track the loop sleeps one
    poll interval and goes round again; on any other poll it returns. *)
Lemma monitor_until_track_change_step (env : Env) (fuel : nat)
    (on_change : option unit) (s : St) :
  0 <= poll_interval (mon s) ->
  let k := n_playback s in
  let r := sp_current_playback env k in
  if watching (current_track_uri (mon s)) r then
    exists s2,
      monitor_until_track_change env (S fuel) on_change s
        = monitor_until_track_change env fuel on_change s2 /\
      now s2 = now s + latency env CurrentPlayback k + poll_interval (mon s) /\
      n_playback s2 = S k /\
      mon s2 = mon s /\
      filter is_hook (trace s2) = filter is_hook (trace s) /\
      slept (trace s2) = poll_interval (mon s) + slept (trace s)
  else
    exists s',
      monitor_until_track_change env (S fuel) on_change s
        = (Ret (shown_uri r), s') /\
      now s' = now s + latency env CurrentPlayback k /\
      n_playback s' = S k /\
      filter is_hook (trace s') = hook_call on_change r ++ filter is_hook (trace s) /\
      slept (trace s') = slept (trace s).
Proof.
  intros Hpoll. cbn zeta. apply Z.ltb_ge in Hpoll.
  cbn [monitor_until_track_change]. unfold_monitor. cbn.
  unfold watching, shown_uri, hook_call, shown_item, playing_item, differs.
  destruct (sp_current_playback env (n_playback s)) as [[pb |] |]; cbn;
    [ destruct (pb_item pb) as [it |]; cbn;
      [ destruct (current_track_uri (mon s)) as [u |]; cbn;
        [ destruct ((item_uri it =? u)%string); cbn | ] | ]
    | | ];
    destruct (mon_verbose (mon s)) eqn:Hverbose; cbn;
    rewrite ?Hverbose, ?Hpoll; cbn; rewrite ?Hpoll; cbn;
    try (destruct on_change; cbn);
    eexists; (split; [ reflexivity | cbn; repeat split ]).
Qed.

(** The run of [monitor_until_track_change] over [n] polls that show the
    watched track and one that does not. *)
Lemma monitor_until_track_change_run (env : Env)
    (on_change : option unit) (n : nat) :
  forall (fuel : nat) (s : St),
    0 <= poll_interval (mon s) ->
    (forall j, (j < n)%nat ->
       watching (current_track_uri (mon s))
         (sp_current_playback env (n_playback s + j)) = true) ->
    watching (current_track_uri (mon s))
      (sp_current_playback env (n_playback s + n)) = false ->
    (n < fuel)%nat ->
    exists s',
      monitor_until_track_change env fuel on_change s
        = (Ret (shown_uri (sp_current_playback env (n_playback s + n))), s') /\
      n_playback s' = S (n_playback s + n) /\
      filter is_hook (trace s') =
        hook_call on_change (sp_current_playback env (n_playback s + n))
          ++ filter is_hook (trace s) /\
      slept (trace s') = Z.of_nat n * poll_interval (mon s) + slept (trace s).
Proof.
  induction n as [| n IH]; intros fuel s Hpoll Hsame Hchange Hfuel;
    (destruct fuel as [| fuel]; [ lia | ]);
    pose proof (monitor_until_track_change_step env fuel on_change s Hpoll)
      as Hstep;
    cbn zeta in Hstep.
  - rewrite Nat.add_0_r in *. rewrite Hchange in Hstep.
    destruct Hstep as (s' & Hrun & _ & Hk & Hhook & Hslept).
    exists s'. repeat split; try assumption; rewrite Hslept; lia.
  - pose proof (Hsame 0%nat ltac:(lia)) as Hfirst.
    rewrite Nat.add_0_r in Hfirst. rewrite Hfirst in Hstep.
    destruct Hstep as (s2 & Hrun & _ & Hk & Hmon & Hhook & Hslept).
    destruct (IH fuel s2) as (s' & Hrun2 & Hk2 & Hhook2 & Hslept2).
    + rewrite Hmon. exact Hpoll.
    + intros j Hj. rewrite Hmon, Hk.
      replace (S (n_playback s) + j)%nat with (n_playback s + S j)%nat by lia.
      apply Hsame. lia.
    + rewrite Hmon, Hk.
      replace (S (n_playback s) + n)%nat with (n_playback s + S n)%nat by lia.
      exact Hchange.
    + lia.
    + rewrite Hk in Hrun2, Hk2, Hhook2.
      replace (S (n_playback s) + n)%nat with (n_playback s + S n)%nat
        in Hrun2, Hk2, Hhook2 by lia.
      exists s'. rewrite Hrun. split; [ exact Hrun2 | ].
      split; [ exact Hk2 | ]. split.
      * rewrite Hhook2, Hhook. reflexivity.
      * rewrite Hslept2, Hslept, Hmon. lia.
Qed.

(** X2: [monitor_until_track_change] returns at the first poll that does
    not show the watched track, after one sleep of a poll interval per
    earlier poll.  It returns that poll's URI if it shows an item, and
    calls the hook (when one was passed) exactly once, with that URI and
    snapshot; it returns [None], without calling the hook, if the poll
    shows nothing or failed.  Here [n] polls show the watched track
    first. *)
Theorem monitor_until_track_change_first_change (env : Env)
    (on_change : option unit) (n : nat) :
  forall (fuel : nat) (s : St),
    0 <= poll_interval (mon s) ->
    (forall j, (j < n)%nat ->
       watching (current_track_uri (mon s))
         (sp_current_playback env (n_playback s + j)) = true) ->
    watching (current_track_uri (mon s))
      (sp_current_playback env (n_playback s + n)) = false ->
    (n < fuel)%nat ->
    exists s',
      monitor_until_track_change env fuel on_change s
        = (Ret (shown_uri (sp_current_playback env (n_playback s + n))), s') /\
      n_playback s' = S (n_playback s + n) /\
      filter is_hook (trace s') =
        hook_call on_change (sp_current_playback env (n_playback s + n))
          ++ filter is_hook (trace s) /\
      slept (trace s') = Z.of_nat n * poll_interval (mon s) + slept (trace s).
Proof. exact (monitor_until_track_change_run env on_change n). Qed.

Lemma monitor_until_track_change_first_change_witness :
  exists s',
    monitor_until_track_change
      (world (scripted [snapshot "spotify:track:X" true 1000 200000;
                        snapshot "spotify:track:X" true 1500 200000]
                       (snapshot "spotify:track:Y" true 0 180000))
             (Exited 0) None)
      5 (Some tt) (observing 500 "idX" "spotify:track:X")
    = (Ret (Some "spotify:track:Y"), s') /\
    slept (trace s') = 1000.
Proof.
  destruct (monitor_until_track_change_first_change
              (world (scripted [snapshot "spotify:track:X" true 1000 200000;
                                snapshot "spotify:track:X" true 1500 200000]
                               (snapshot "spotify:track:Y" true 0 180000))
                     (Exited 0) None)
              (Some tt) 2 5 (observing 500 "idX" "spotify:track:X"))
    as (s' & Hrun & _ & _ & Hslept).
  - simpl. lia.
  - intros [| [| j]] Hj; [ reflexivity | reflexivity | lia ].
  - reflexivity.
  - lia.
  - exists s'. split; [ exact Hrun | exact Hslept ].
Defined.

(** X3: [monitor_until_track_change] has no timeout: while every poll
    shows the watched track it never returns, however much fuel it is
    given. *)
Theorem monitor_until_track_change_never_returns_while_watching (env : Env)
    (on_change : option unit) :
  forall (fuel : nat) (s : St),
    0 <= poll_interval (mon s) ->
    (forall j, watching (current_track_uri (mon s))
                 (sp_current_playback env (n_playback s + j)) = true) ->
    fst (monitor_until_track_change env fuel on_change s) = OutOfFuel.
Proof.
  induction fuel as [| fuel IH]; intros s Hpoll Hsame.
  - reflexivity.
  - pose proof (monitor_until_track_change_step env fuel on_change s Hpoll)
      as Hstep.
    cbn zeta in Hstep.
    pose proof (Hsame 0%nat) as Hfirst.
    rewrite Nat.add_0_r in Hfirst. rewrite Hfirst in Hstep.
    destruct Hstep as (s2 & Hrun & _ & Hk & Hmon & _).
    rewrite Hrun. apply IH.
    + rewrite Hmon. exact Hpoll.
    + intros j. rewrite Hmon, Hk.
      replace (S (n_playback s) + j)%nat with (n_playback s + S j)%nat by lia.
      apply Hsame.
Qed.

Lemma monitor_until_track_change_never_returns_while_watching_witness :
  fst (monitor_until_track_change
         (world (fun _ => snapshot "spotify:track:X" true 1000 200000)
                (Exited 0) None)
         50 None (observing 500 "idX" "spotify:track:X")) = OutOfFuel.
Proof.
  apply (monitor_until_track_change_never_returns_while_watching
           (world (fun _ => snapshot "spotify:track:X" true 1000 200000)
                  (Exited 0) None)
           None 50 (observing 500 "idX" "spotify:track:X")).
  - simpl. lia.
  - intros j. reflexivity.
Defined.

(** ** Monitor: how long the timed waits can take *)







(** ** Monitor: edge cases of the waits *)

(** X5: with a timeout of zero or less, [wait_for_track_start] and
    [wait_for_position_reset] return [False] straight away: no fetch is
    made, nothing is slept, and the monitor is not written. *)
Theorem waits_without_time_do_not_poll (env : Env) (fuel : nat)
    (expected_uri : string) (limit : Z) (s : St) :
  limit <= 0 ->
  let started := wait_for_track_start env (S fuel) expected_uri limit s in
  let reset := wait_for_position_reset env (S fuel) expected_uri limit s in
  (fst started = Ret false /\
   n_playback (snd started) = n_playback s /\
   now (snd started) = now s /\
   mon (snd started) = mon s) /\
  (fst reset = Ret false /\
   n_playback (snd reset) = n_playback s /\
   now (snd reset) = now s /\
   mon (snd reset) = mon s).
Proof.
  intros Hlimit. cbn zeta.
  assert (Hup : (now s - now s <? limit * 1000) = false)
    by (apply Z.ltb_ge; lia).
  unfold wait_for_track_start, wait_for_position_reset.
  cbn [wait_for_track_start_loop wait_for_position_reset_loop].
  unfold_monitor. cbn. rewrite Hup. cbn. repeat split.
Qed.

Lemma waits_without_time_do_not_poll_witness :
  fst (wait_for_track_start (world nothing_playing (Exited 0) None)
         1 "spotify:track:X" 0 (fresh 500 false)) = Ret false.
Proof.
  apply (waits_without_time_do_not_poll
           (world nothing_playing (Exited 0) None)
           0 "spotify:track:X" 0 (fresh 500 false)).
  lia.
Defined.

(** X6: a monitor built with a negative poll interval makes
    [wait_for_track_start] fail with [ValueError] at the first poll that
    does not show the track started (the sleep refuses the negative
    length); the monitor is not written. *)
Theorem negative_poll_interval_raises (env : Env) (fuel : nat)
    (expected_uri : string) (timeout : Z) (s : St) :
  poll_interval (mon s) < 0 ->
  0 < timeout ->
  ~ shows_track_start expected_uri (sp_current_playback env (n_playback s)) ->
  let r := wait_for_track_start env (S fuel) expected_uri timeout s in
  fst r = Raise ValueError /\
  n_playback (snd r) = S (n_playback s) /\
  mon (snd r) = mon s.
Proof.
  intros Hpoll Htimeout Hnot. cbn zeta.
  assert (Hguard : (now s - now s <? timeout * 1000) = true)
    by (apply Z.ltb_lt; lia).
  apply Z.ltb_lt in Hpoll.
  rewrite <- track_started_iff in Hnot. apply not_true_is_false in Hnot.
  revert Hnot. unfold wait_for_track_start, track_started, playing_item.
  cbn [wait_for_track_start_loop]. unfold_monitor. cbn. rewrite Hguard.
  destruct (sp_current_playback env (n_playback s)) as [[pb |] |]; cbn;
    [ destruct (pb_item pb) as [it |]; cbn;
      [ destruct ((item_uri it =? expected_uri)%string); cbn;
        [ destruct (get_is_playing pb); cbn;
          [ destruct (get_progress_ms pb <? 2000); cbn | ] | ] | ] | | ];
    intros Hnot; try discriminate Hnot;
    destruct (mon_verbose (mon s)) eqn:Hverbose; cbn;
    rewrite ?Hverbose, ?Hpoll; cbn; rewrite ?Hpoll; cbn;
    repeat split.
Qed.

Lemma negative_poll_interval_raises_witness :
  fst (wait_for_track_start (world nothing_playing (Exited 0) None)
         1 "spotify:track:X" 30 (fresh (-500) false)) = Raise ValueError.
Proof.
  apply (negative_poll_interval_raises
           (world nothing_playing (Exited 0) None)
           0 "spotify:track:X" 30 (fresh (-500) false));
    [ simpl; lia | lia | ].
  intros (pb & it & Hresp & _). discriminate Hresp.
Defined.



(** ** Device activation: when it succeeds *)

Ltac unfold_recorder :=
  unfold try_except, devices, start_playback, current_playback, of_response,
    subprocess_Popen, bind, time_time, get_rec, when, log, emit, time_sleep,
    advance, raise, out_of_fuel, ret.

Lemma device_poll_time_ge (env : Env) (n : nat) :
  (forall k, 0 <= latency env Devices k) ->
  forall (k : nat) (t : Z), t <= device_poll_time env k t n.
Proof.
  intros Hlat. induction n as [| n IH]; intros k t; cbn.
  - lia.
  - specialize (IH (S k) (t + latency env Devices k + 1000)).
    specialize (Hlat k). lia.
Qed.

(** One pass of the device loop while the time is not up. *)
Lemma ensure_spotify_device_active_loop_step (env : Env) (fuel : nat)
    (max_wait start_time : Z) (s : St) :
  now s - start_time < max_wait * 1000 ->
  let k := n_devices s in
  if device_found (sp_devices env k) then
    exists s',
      ensure_spotify_device_active_loop env (S fuel) max_wait start_time s
        = (Ret true, s') /\
      n_devices s' = S k
  else
    exists s2,
      ensure_spotify_device_active_loop env (S fuel) max_wait start_time s
        = ensure_spotify_device_active_loop env fuel max_wait start_time s2 /\
      now s2 = now s + latency env Devices k + 1000 /\
      n_devices s2 = S k.
Proof.
  intros Hguard. cbn zeta. apply Z.ltb_lt in Hguard.
  cbn [ensure_spotify_device_active_loop]. unfold_recorder. cbn.
  rewrite Hguard. unfold device_found.
  destruct (sp_devices env (n_devices s)) as [[[| d l] |] |]; cbn;
    destruct (rec_verbose (rec s)); cbn;
    eexists; (split; [ reflexivity | cbn; repeat split ]).
Qed.

Lemma ensure_spotify_device_active_loop_timeout (env : Env) (fuel : nat)
    (max_wait start_time : Z) (s : St) :
  max_wait * 1000 <= now s - start_time ->
  exists s',
    ensure_spotify_device_active_loop env (S fuel) max_wait start_time s
      = (Ret false, s') /\
    n_devices s' = n_devices s /\ now s' = now s /\
    n_playback s' = n_playback s /\ n_start s' = n_start s /\
    trace s' = EvLog DERROR NoSpotifyDeviceFound :: trace s.
Proof.
  intros Hup. apply Z.ltb_ge in Hup.
  cbn [ensure_spotify_device_active_loop]. unfold_recorder. cbn.
  rewrite Hup. cbn. eexists. repeat split.
Qed.

Lemma ensure_spotify_device_active_loop_spec (env : Env)
    (max_wait start_time : Z) :
  (forall k, 0 <= latency env Devices k) ->
  forall (fuel : nat) (s : St),
    Z.max 0 (max_wait * 1000 - (now s - start_time)) < Z.of_nat fuel ->
    exists b s',
      ensure_spotify_device_active_loop env fuel max_wait start_time s
        = (Ret b, s') /\
      (b = true <->
       exists n,
         device_poll_time env (n_devices s) (now s) n - start_time
           < max_wait * 1000 /\
         device_found (sp_devices env (n_devices s + n)) = true).
Proof.
  intros Hlat. induction fuel as [| fuel IH]; intros s Hfuel.
  - lia.
  - destruct (Z.lt_ge_cases (now s - start_time) (max_wait * 1000))
      as [Hguard | Hup].
    + pose proof (ensure_spotify_device_active_loop_step env fuel max_wait
                    start_time s Hguard) as Hstep.
      cbn zeta in Hstep.
      destruct (device_found (sp_devices env (n_devices s))) eqn:Hhit.
      * destruct Hstep as (s' & Hrun & _).
        exists true, s'. split; [ exact Hrun | ]. split; [ | reflexivity ].
        intros _. exists 0%nat. cbn. rewrite Nat.add_0_r.
        split; [ lia | exact Hhit ].
      * destruct Hstep as (s2 & Hrun & Hnow & Hk).
        pose proof (Hlat (n_devices s)) as Hlatk.
        destruct (IH s2) as (b & s' & Hrun2 & Hiff).
        { rewrite Hnow. lia. }
        exists b, s'. rewrite Hrun. split; [ exact Hrun2 | ].
        rewrite Hnow, Hk in Hiff. rewrite Hiff. split.
        -- intros (n & Ht & Hn). exists (S n). cbn [device_poll_time].
           rewrite Nat.add_succ_r. split; assumption.
        -- intros ([| n] & Ht & Hn).
           ++ rewrite Nat.add_0_r in Hn. congruence.
           ++ exists n. cbn [device_poll_time] in Ht.
              rewrite Nat.add_succ_r in Hn. split; assumption.
    + destruct (ensure_spotify_device_active_loop_timeout env fuel max_wait
                  start_time s Hup) as (s' & Hrun & _).
      exists false, s'. split; [ exact Hrun | ]. split.
      * discriminate.
      * intros (n & Ht & _).
        pose proof (device_poll_time_ge env n Hlat (n_devices s) (now s)).
        lia.
Qed.

(** X8: once the player could be launched ([spotify], or
    [/snap/bin/spotify] when that spawn fails) and with device queries
    that take no negative time, [ensure_spotify_device_active] returns, and
    it returns [True] exactly when some query made before [max_wait]
    seconds have gone by lists at least one device; a query that fails,
    or lists none, costs one second and is tried again. *)
Theorem ensure_spotify_device_active_true_iff (env : Env) (max_wait : Z)
    (s : St) :
  popen env "spotify" = true \/ popen env "/snap/bin/spotify" = true ->
  (forall k, 0 <= latency env Devices k) ->
  exists fuel0, forall fuel, (fuel0 <= fuel)%nat ->
    exists b s',
      ensure_spotify_device_active env fuel max_wait s = (Ret b, s') /\
      (b = true <->
       exists n,
         device_poll_time env (n_devices s) (now s) n - now s
           < max_wait * 1000 /\
         device_found (sp_devices env (n_devices s + n)) = true).
Proof.
  intros Hlaunch Hlat.
  exists (S (Z.to_nat (Z.max 0 (max_wait * 1000)))). intros fuel Hfuel.
  unfold ensure_spotify_device_active. unfold_recorder. cbn.
  destruct (rec_verbose (rec s)); cbn;
    destruct (popen env "spotify") eqn:Hfirst; cbn;
    try (destruct (popen env "/snap/bin/spotify") eqn:Hsecond; cbn);
    try (destruct Hlaunch; discriminate);
    match goal with
    | |- context [ensure_spotify_device_active_loop env fuel ?m ?st ?s1] =>
        apply (ensure_spotify_device_active_loop_spec env m st Hlat fuel s1);
        cbn; lia
    end.
Qed.

Lemma ensure_spotify_device_active_true_iff_witness :
  exists fuel0, forall fuel, (fuel0 <= fuel)%nat ->
    fst (ensure_spotify_device_active
           (mkEnv nothing_playing
                  (scripted [Failed; Returned (Some [])]
                            (Returned (Some ["desktop"])))
                  (fun _ => Returned tt) (fun _ _ => 0)
                  (fun cmd => String.eqb cmd "/snap/bin/spotify")
                  (fun _ => Exited 0) (fun _ => None) (fun _ _ => Killed))
           fuel 15 (fresh 500 false)) = Ret true.
Proof.
  destruct (ensure_spotify_device_active_true_iff
              (mkEnv nothing_playing
                     (scripted [Failed; Returned (Some [])]
                               (Returned (Some ["desktop"])))
                     (fun _ => Returned tt) (fun _ _ => 0)
                     (fun cmd => String.eqb cmd "/snap/bin/spotify")
                     (fun _ => Exited 0) (fun _ => None) (fun _ _ => Killed))
              15 (fresh 500 false))
    as [fuel0 Hfuel0].
  - right. reflexivity.
  - intros k. simpl. lia.
  - exists fuel0. intros fuel Hfuel.
    destruct (Hfuel0 fuel Hfuel) as (b & s' & Hrun & Hiff).
    rewrite Hrun. simpl. f_equal. apply Hiff.
    exists 2%nat. split; [ vm_compute | ]; reflexivity.
Defined.

(** X9: with [max_wait] zero or less, [ensure_spotify_device_active] still
    launches the player but then returns [False] without a single device
    query and without sleeping. *)
Theorem ensure_without_time_only_launches (env : Env) (fuel : nat)
    (max_wait : Z) (s : St) :
  max_wait <= 0 ->
  let r := ensure_spotify_device_active env (S fuel) max_wait s in
  fst r = Ret false /\
  n_devices (snd r) = n_devices s /\
  now (snd r) = now s /\
  In (EvPopen "spotify") (trace (snd r)).
Proof.
  intros Hwait. cbn zeta.
  unfold ensure_spotify_device_active. unfold_recorder.
  cbn -[ensure_spotify_device_active_loop].
  destruct (rec_verbose (rec s)); cbn -[ensure_spotify_device_active_loop];
    destruct (popen env "spotify"); cbn -[ensure_spotify_device_active_loop];
    try (destruct (popen env "/snap/bin/spotify");
         cbn -[ensure_spotify_device_active_loop]);
    try (repeat split; cbn; tauto);
    match goal with
    | |- context [ensure_spotify_device_active_loop env (S fuel) ?m ?st ?s1] =>
        destruct (ensure_spotify_device_active_loop_timeout env fuel m st s1)
          as (s' & Hrun & Hk & Hnow & _ & _ & Htrace);
        [ cbn; lia | rewrite Hrun; cbn; rewrite Hk, Hnow, Htrace ]
    end;
    repeat split; cbn; tauto.
Qed.

Lemma ensure_without_time_only_launches_witness :
  fst (ensure_spotify_device_active (world nothing_playing (Exited 0) None)
         1 0 (fresh 500 false)) = Ret false.
Proof.
  apply (ensure_without_time_only_launches
           (world nothing_playing (Exited 0) None) 0 0 (fresh 500 false)).
  lia.
Defined.

(** ** Starter: what a call can end in *)

Lemma ensure_spotify_device_active_loop_outcome (env : Env) (fuel : nat) :
  forall (max_wait start_time : Z) (s : St),
    let r := ensure_spotify_device_active_loop env fuel max_wait start_time s in
    fst r = Ret true \/ fst r = Ret false \/ fst r = OutOfFuel.
Proof.
  induction fuel as [| fuel IH]; intros max_wait start_time s; cbn zeta.
  - auto.
  - cbn [ensure_spotify_device_active_loop]. unfold_recorder. cbn.
    repeat (break_match; cbn; try discriminate); auto.
Qed.

Lemma ensure_spotify_device_active_outcome (env : Env) (fuel : nat)
    (max_wait : Z) (s : St) :
  let r := ensure_spotify_device_active env fuel max_wait s in
  (fst r = Ret true \/ fst r = Ret false \/ fst r = OutOfFuel) /\
  mon (snd r) = mon s /\ rec (snd r) = rec s.
Proof.
  cbn zeta. unfold ensure_spotify_device_active. unfold_recorder. cbn.
  repeat (break_match; cbn; try discriminate); auto;
    match goal with
    | |- context [ensure_spotify_device_active_loop env fuel ?m ?st ?s1] =>
        destruct (ensure_spotify_device_active_loop_frame env fuel m st s1)
          as (_ & _ & Hm & Hr & _);
        pose proof (ensure_spotify_device_active_loop_outcome env fuel m st s1)
          as Hout;
        cbn in Hm, Hr; cbn zeta in Hout; auto
    end.
Qed.

(** What one pass leaves alone, and where a verifying pass leaves the
    fetch counter. *)
Lemma start_playback_attempt_frame (env : Env) (uri : string)
    (attempt max_retries : Z) (s : St) :
  let r := start_playback_attempt env uri attempt max_retries s in
  mon (snd r) = mon s /\ rec (snd r) = rec s /\
  (n_playback s <= n_playback (snd r))%nat /\
  (fst r = Ret (FlowReturn true) -> n_playback (snd r) = S (n_playback s)).
Proof.
  cbn zeta.
  unfold start_playback_attempt. unfold_recorder. cbn.
  repeat (break_match; cbn in *; try discriminate);
    repeat split; auto; discriminate.
Qed.

(** The wait between two passes changes the clock and the trace only. *)
Lemma wait_before_retry_frame (attempt max_retries : Z) (s : St) :
  exists s2,
    (if attempt <? max_retries - 1 then time_sleep 1000 else ret tt) s
      = (Ret tt, s2) /\
    issuances s2 = issuances s /\
    n_playback s2 = n_playback s /\ n_start s2 = n_start s /\
    mon s2 = mon s /\ rec s2 = rec s /\
    slept (trace s2)
      = (if attempt <? max_retries - 1 then 1000 else 0) + slept (trace s).
Proof.
  unfold time_sleep, bind, emit, advance, ret, issuances.
  destruct (attempt <? max_retries - 1); cbn; eexists; repeat split.
Qed.

Lemma start_playback_attempts_outcome (env : Env) (uri : string) :
  forall (todo : nat) (attempt max_retries : Z) (s : St),
    let r := start_playback_attempts env todo uri attempt max_retries s in
    (fst r = Ret true \/ fst r = Ret false) /\
    (issuances (snd r) <= issuances s + todo)%nat /\
    (fst r = Ret true ->
     verified uri (sp_current_playback env (pred (n_playback (snd r)))) = true /\
     (n_playback s < n_playback (snd r))%nat) /\
    (n_playback s <= n_playback (snd r))%nat /\
    mon (snd r) = mon s /\ rec (snd r) = rec s.
Proof.
  induction todo as [| todo IH]; intros attempt max_retries s; cbn zeta.
  - cbn. split; [ right; reflexivity | ].
    split; [ unfold issuances; cbn; lia | ].
    split; [ discriminate | ]. repeat split. lia.
  - cbn [start_playback_attempts]. unfold bind.
    destruct (start_playback_attempt_issues_one env uri attempt max_retries s)
      as (Hone & _ & Hflow).
    destruct (start_playback_attempt_frame env uri attempt max_retries s)
      as (Hmon & Hrec & Hle & Hreturned).
    destruct (start_playback_attempt env uri attempt max_retries s) as [o s1].
    cbn [fst snd] in Hone, Hflow, Hmon, Hrec, Hle, Hreturned.
    destruct Hflow as [[-> Hverified] | [-> | ->]].
    + specialize (Hreturned eq_refl). cbn.
      rewrite Hreturned, Hone, Hmon, Hrec. cbn [pred].
      split; [ left; reflexivity | ]. split; [ lia | ].
      split; [ intros _; split; [ exact Hverified | lia ] | ].
      repeat split. lia.
    + destruct (IH (attempt + 1) max_retries s1)
        as (Hout & Hcount & Htrue & Hle2 & Hmon2 & Hrec2).
      rewrite Hmon2, Hrec2, Hmon, Hrec.
      split; [ exact Hout | ]. split; [ lia | ].
      split; [ intros Hb; destruct (Htrue Hb); split; [ assumption | lia ] | ].
      repeat split. lia.
    + destruct (wait_before_retry_frame attempt max_retries s1)
        as (s2 & -> & Hi & Hp & _ & Hm & Hr & _).
      destruct (IH (attempt + 1) max_retries s2)
        as (Hout & Hcount & Htrue & Hle2 & Hmon2 & Hrec2).
      rewrite Hmon2, Hrec2, Hm, Hr, Hmon, Hrec.
      split; [ exact Hout | ]. split; [ lia | ].
      split; [ intros Hb; destruct (Htrue Hb); split; [ assumption | lia ] | ].
      repeat split. lia.
Qed.

(** X10: [start_playback_web_api] never raises: it ends in [True] or
    [False] (or is still polling for a device).  It issues at most
    [max_retries] play commands, returns [True] only when the last fetch
    it made showed the requested track playing, and writes neither the
    monitor nor the recorder. *)
Theorem start_playback_web_api_outcome (env : Env) (fuel : nat)
    (uri : string) (max_retries : Z) (s : St) :
  let r := start_playback_web_api env fuel uri max_retries s in
  (fst r = Ret true \/ fst r = Ret false \/ fst r = OutOfFuel) /\
  (issuances (snd r) <= issuances s + Z.to_nat max_retries)%nat /\
  (fst r = Ret true ->
   shows_track_playing uri
     (sp_current_playback env (pred (n_playback (snd r)))) /\
   (n_playback s < n_playback (snd r))%nat) /\
  mon (snd r) = mon s /\ rec (snd r) = rec s.
Proof.
  cbn zeta. unfold start_playback_web_api, bind.
  destruct (ensure_spotify_device_active_frame env fuel 15 s)
    as (Hplayback & _ & Hissued).
  destruct (ensure_spotify_device_active_outcome env fuel 15 s)
    as (Hout & Hmon & Hrec).
  destruct (ensure_spotify_device_active env fuel 15 s) as [o s1].
  cbn in Hplayback, Hissued, Hout, Hmon, Hrec.
  destruct Hout as [-> | [-> | ->]]; cbn.
  - destruct (start_playback_attempts_outcome env uri (Z.to_nat max_retries)
                0 max_retries s1)
      as (Hout & Hcount & Htrue & _ & Hmon2 & Hrec2).
    cbn zeta in *.
    rewrite Hmon2, Hrec2, Hmon, Hrec. rewrite <- Hplayback, <- Hissued.
    split; [ tauto | ]. split; [ exact Hcount | ].
    split; [ | split; reflexivity ].
    intros Hb. destruct (Htrue Hb) as (Hverified & Hfetched).
    split; [ apply verified_iff; exact Hverified | exact Hfetched ].
  - split; [ right; left; reflexivity | ].
    split; [ unfold issuances in *; cbn; lia | ].
    split; [ discriminate | ]. split; assumption.
  - split; [ right; right; reflexivity | ].
    split; [ lia | ]. split; [ discriminate | ]. split; assumption.
Qed.

(** X11: [start_playback_web_api] gives up without a play command and
    without a fetch, returning [False], when no device could be
    activated; and it does the same, device or not, when [max_retries] is
    zero or less. *)
Theorem start_playback_web_api_without_attempt (env : Env) (fuel : nat)
    (uri : string) (max_retries : Z) (s : St) :
  fst (ensure_spotify_device_active env fuel 15 s) = Ret false
  \/ (fst (ensure_spotify_device_active env fuel 15 s) = Ret true
      /\ max_retries <= 0) ->
  let r := start_playback_web_api env fuel uri max_retries s in
  fst r = Ret false /\
  issuances (snd r) = issuances s /\
  n_start (snd r) = n_start s /\
  n_playback (snd r) = n_playback s.
Proof.
  intros Hcase. cbn zeta. unfold start_playback_web_api, bind.
  destruct (ensure_spotify_device_active_frame env fuel 15 s)
    as (Hplayback & Hstart & Hissued).
  destruct (ensure_spotify_device_active env fuel 15 s) as [o s1].
  cbn in Hcase, Hplayback, Hstart, Hissued.
  destruct Hcase as [-> | [-> Hnone]]; cbn.
  - unfold issuances in *. cbn. repeat split; assumption.
  - replace (Z.to_nat max_retries) with 0%nat by lia.
    cbn. unfold issuances in *. cbn. repeat split; assumption.
Qed.

Lemma start_playback_web_api_without_attempt_witness :
  fst (start_playback_web_api (world nothing_playing (Exited 0) None)
         1 "spotify:track:X" 0 (fresh 500 false)) = Ret false.
Proof.
  apply (start_playback_web_api_without_attempt
           (world nothing_playing (Exited 0) None)
           1 "spotify:track:X" 0 (fresh 500 false)).
  right. split; [ reflexivity | lia ].
Defined.

Lemma start_playback_web_api_outcome_witness :
  shows_track_playing "spotify:track:X"
    (sp_current_playback
       (world (fun _ => snapshot "spotify:track:X" true 0 200000) (Exited 0) None)
       (pred (n_playback
                (snd (start_playback_web_api
                        (world (fun _ => snapshot "spotify:track:X" true 0 200000)
                               (Exited 0) None)
                        1 "spotify:track:X" 3 (fresh 500 false)))))).
Proof.
  apply (proj1 (proj2 (proj2 (start_playback_web_api_outcome
                                (world (fun _ => snapshot "spotify:track:X" true 0 200000)
                                       (Exited 0) None)
                                1 "spotify:track:X" 3 (fresh 500 false))))).
  reflexivity.
Defined.

(** ** Starter: the schedule of sleeps *)

(** How one pass ends and what it costs, by what the play command and the
    fetch answer. *)
Lemma start_playback_attempt_cases (env : Env) (uri : string)
    (attempt max_retries : Z) (s : St) :
  let r := start_playback_attempt env uri attempt max_retries s in
  let fetched := sp_current_playback env (n_playback s) in
  n_start (snd r) = S (n_start s) /\
  match sp_start_playback env (n_start s) with
  | Failed =>
      fst r = Ret FlowNext /\
      n_playback (snd r) = n_playback s /\
      slept (trace (snd r)) = slept (trace s)
  | Returned _ =>
      n_playback (snd r) = S (n_playback s) /\
      slept (trace (snd r)) = 2000 + slept (trace s) /\
      fst r = Ret (if verified uri fetched then FlowReturn true
                   else match fetched with
                        | Returned playback =>
                            match playing_item playback with
                            | Some _ => FlowNext
                            | None => FlowContinue
                            end
                        | Failed => FlowNext
                        end)
  end.
Proof.
  cbn zeta.
  unfold start_playback_attempt, verified. unfold_recorder. cbn.
  repeat (break_match; cbn in *; try discriminate);
    repeat split; auto; congruence.
Qed.




Lemma start_playback_attempts_rejected (env : Env) (uri : string)
    (max_retries : Z) :
  (forall k, sp_start_playback env k = Failed) ->
  forall (todo : nat) (attempt : Z) (s : St),
    attempt + Z.of_nat todo = max_retries ->
    let r := start_playback_attempts env todo uri attempt max_retries s in
    fst r = Ret false /\
    n_playback (snd r) = n_playback s /\
    n_start (snd r) = (n_start s + todo)%nat /\
    slept (trace (snd r))
      = slept (trace s) + 1000 * Z.max 0 (Z.of_nat todo - 1).
Proof.
  intros Hrejected.
  induction todo as [| todo IH]; intros attempt s Hleft; cbn zeta.
  - cbn. repeat split; lia.
  - cbn [start_playback_attempts]. unfold bind.
    destruct (start_playback_attempt_cases env uri attempt max_retries s)
      as (Hstart & Hcase).
    rewrite Hrejected in Hcase. destruct Hcase as (Hflow & Hplayback & Hslept).
    destruct (start_playback_attempt env uri attempt max_retries s) as [o s1].
    cbn [fst snd] in Hstart, Hflow, Hplayback, Hslept. subst o.
    destruct (wait_before_retry_frame attempt max_retries s1)
      as (s2 & -> & _ & Hp2 & Hs2 & _ & _ & Hslept2).
    destruct (IH (attempt + 1) s2) as (Hret & Hp & Hs & Hsl); [ lia | ].
    cbn zeta in Hret, Hp, Hs, Hsl.
    rewrite Hret, Hp, Hs, Hsl, Hp2, Hs2, Hslept2, Hplayback, Hstart, Hslept.
    repeat split; try lia.
    destruct (Z.ltb_spec attempt (max_retries - 1)); lia.
Qed.

(** X13: when the remote API rejects every play command (with a device
    there), [start_playback_web_api] still issues all [max_retries]
    commands, makes no verification fetch at all, sleeps only the 1 s
    between attempts, and returns [False]: the error is never raised to
    the caller. *)
Theorem start_playback_web_api_all_rejected (env : Env) (fuel : nat)
    (uri : string) (max_retries : Z) (s s1 : St) :
  ensure_spotify_device_active env fuel 15 s = (Ret true, s1) ->
  1 <= max_retries ->
  (forall k, sp_start_playback env k = Failed) ->
  let r := start_playback_web_api env fuel uri max_retries s in
  fst r = Ret false /\
  n_playback (snd r) = n_playback s /\
  n_start (snd r) = (n_start s + Z.to_nat max_retries)%nat /\
  slept (trace (snd r)) = slept (trace s1) + 1000 * (max_retries - 1).
Proof.
  intros Hactive Hretries Hrejected. cbn zeta.
  destruct (ensure_spotify_device_active_frame env fuel 15 s)
    as (Hplayback & Hstart & _).
  rewrite Hactive in Hplayback, Hstart. cbn [snd] in Hplayback, Hstart.
  unfold start_playback_web_api, bind. rewrite Hactive. cbn [negb].
  destruct (start_playback_attempts_rejected env uri max_retries Hrejected
              (Z.to_nat max_retries) 0 s1) as (Hret & Hp & Hs & Hsl);
    [ lia | ].
  cbn zeta in Hret, Hp, Hs, Hsl.
  rewrite Hret, Hp, Hs, Hsl, Hplayback, Hstart.
  repeat split. lia.
Qed.

Lemma start_playback_web_api_all_rejected_witness :
  fst (start_playback_web_api
         (mkEnv nothing_playing (fun _ => Returned (Some ["desktop"]))
                (fun _ => Failed) (fun _ _ => 0) (fun _ => true)
                (fun _ => Exited 0) (fun _ => None) (fun _ _ => Killed))
         1 "spotify:track:X" 3 (fresh 500 false)) = Ret false.
Proof.
  apply (start_playback_web_api_all_rejected
           (mkEnv nothing_playing (fun _ => Returned (Some ["desktop"]))
                  (fun _ => Failed) (fun _ _ => 0) (fun _ => true)
                  (fun _ => Exited 0) (fun _ => None) (fun _ _ => Killed))
           1 "spotify:track:X" 3 (fresh 500 false)
           (snd (ensure_spotify_device_active
                   (mkEnv nothing_playing (fun _ => Returned (Some ["desktop"]))
                          (fun _ => Failed) (fun _ _ => 0) (fun _ => true)
                          (fun _ => Exited 0) (fun _ => None) (fun _ _ => Killed))
                   1 15 (fresh 500 false)))).
  - reflexivity.
  - lia.
  - intros k. reflexivity.
Defined.

(** ** Recording: when it succeeds and what it reports *)

Ltac unfold_recording :=
  unfold record_track_simple, _cleanup_recording, try_except, bind, get_rec,
    subprocess_run, kill, time_sleep, os_path_exists, os_path_getsize, when,
    log, emit, advance, raise, ret.

(** What [record_track_simple] returns, read off the world. *)
Lemma record_track_simple_result (env : Env) (path uri filepath : string)
    (d : Z) (s : St) :
  fst (record_track_simple env path uri filepath d s) =
  match run env (spotdl_cmd path uri filepath d (rec_verbose (rec s))) with
  | Exited c =>
      if c =? 0 then
        match getsize env filepath with
        | Some n => Ret (negb (n <? d * 20 * 1024))
        | None => Ret false
        end
      else Ret false
  | _ =>
      match run env ["pkill"; "pw-record"] with
      | Interrupted => Raise KeyboardInterrupt
      | _ => Ret false
      end
  end.
Proof.
  unfold_recording.
  destruct (run env (spotdl_cmd path uri filepath d (rec_verbose (rec s))));
    cbn;
    repeat (break_match; cbn in *; try discriminate; try reflexivity).
Qed.

(** X14: [record_track_simple] returns [True] exactly when the capture
    script exits with code 0, the output file exists and its size is at
    least [expected_duration_s * 20 * 1024] bytes.  For an expected
    duration of zero or less every existing file passes, an empty one
    too. *)
Theorem record_track_simple_true_iff (env : Env) (path uri filepath : string)
    (d : Z) (s : St) :
  let cmd := spotdl_cmd path uri filepath d (rec_verbose (rec s)) in
  fst (record_track_simple env path uri filepath d s) = Ret true <->
  run env cmd = Exited 0 /\
  exists n, getsize env filepath = Some n /\ d * 20 * 1024 <= n.
Proof.
  intros cmd. rewrite record_track_simple_result. fold cmd.
  destruct (run env cmd) as [c | |].
  - destruct (Z.eqb_spec c 0) as [-> | Hc].
    + destruct (getsize env filepath) as [n |].
      * destruct (Z.ltb_spec n (d * 20 * 1024)) as [Hsmall | Hbig]; cbn.
        -- split; [ discriminate | ].
           intros (_ & n' & Hsize & Hle). injection Hsize as <-. lia.
        -- split; [ | reflexivity ].
           intros _. split; [ reflexivity | ]. exists n. split; [ reflexivity | lia ].
      * split; [ discriminate | ].
        intros (_ & n' & Hsize & _). discriminate Hsize.
    + split; [ discriminate | ].
      intros (Hexit & _). injection Hexit as Hzero. contradiction.
  - split.
    + destruct (run env ["pkill"; "pw-record"]); discriminate.
    + intros (Hexit & _). discriminate Hexit.
  - split.
    + destruct (run env ["pkill"; "pw-record"]); discriminate.
    + intros (Hexit & _). discriminate Hexit.
Qed.

(** X15: the log line for a process that "exited with code ..." is never
    written by [record_track_simple]: with [check=True] a non-zero exit
    raises, and what gets logged is the plain "Recording failed" of the
    [CalledProcessError] handler, as the last event of the call. *)
Theorem nonzero_exit_is_logged_as_recording_failed (env : Env)
    (path uri filepath : string) (d : Z) (s : St) :
  let cmd := spotdl_cmd path uri filepath d (rec_verbose (rec s)) in
  let r := record_track_simple env path uri filepath d s in
  exists new, trace (snd r) = new ++ trace s /\
    (forall c, ~ In (EvLog DERROR (RecordingExitedWithCode c)) new) /\
    (forall c, run env cmd = Exited c -> c <> 0 ->
       hd_error new = Some (EvLog DERROR RecordingFailed)).
Proof.
  intros cmd r. subst r. unfold_recording. fold cmd.
  destruct (run env cmd) as [c | |] eqn:Hrun; cbn;
    repeat (break_match; cbn in * ); try discriminate;
    exists_new;
    (split;
     [ intros c' Hin; cbn in Hin;
       repeat match goal with
              | H : _ \/ _ |- _ => destruct H
              end;
       try discriminate; contradiction
     | intros c' Hc' Hnonzero;
       first [ discriminate Hc'
             | reflexivity
             | injection Hc' as <-;
               match goal with
               | H : negb (_ =? _) = false |- _ =>
                   apply negb_false_iff, Z.eqb_eq in H; contradiction
               end ] ]).
Qed.

(** X16: [record_track_simple] talks to nothing but the capture script
    and the file system: it makes no remote call, writes neither the
    monitor nor the recorder, and with no pid held it sends no signal.
    It returns [True] or [False], or lets a [KeyboardInterrupt] through
    when the cleanup sweep itself is interrupted; no other exception
    leaves it. *)
Theorem record_track_simple_frame (env : Env) (path uri filepath : string)
    (d : Z) (s : St) :
  let r := record_track_simple env path uri filepath d s in
  (fst r = Ret true \/ fst r = Ret false \/ fst r = Raise KeyboardInterrupt) /\
  n_playback (snd r) = n_playback s /\
  n_devices (snd r) = n_devices s /\
  n_start (snd r) = n_start s /\
  mon (snd r) = mon s /\
  rec (snd r) = rec s /\
  (recording_pid (rec s) = None ->
   filter is_kill (trace (snd r)) = filter is_kill (trace s)).
Proof.
  cbn zeta. split.
  - rewrite record_track_simple_result.
    repeat (break_match; cbn; auto).
    all: match goal with
         | |- context [negb ?b] => destruct b; cbn; auto
         end.
  - unfold_recording.
    destruct (run env (spotdl_cmd path uri filepath d (rec_verbose (rec s))));
      cbn;
      repeat (break_match; cbn in * ); try discriminate;
      repeat split; intros Hnone; try discriminate Hnone; reflexivity.
Qed.

(** ** Cleanup ([_cleanup_recording]) *)



(** X18: with a pid held, [_cleanup_recording] sends the terminate
    signal, and only if that signal was delivered waits half a second and
    sends the kill signal; a process that is already gone, or a signal
    that fails otherwise, ends the signalling there.  None of these errors
    is raised, and the sweep always runs last. *)
Theorem cleanup_signals_then_sweeps (env : Env) (s : St) (pid : Z) :
  recording_pid (rec s) = Some pid ->
  pid <> 0 ->
  run env ["pkill"; "pw-record"] <> Interrupted ->
  let r := _cleanup_recording env s in
  fst r = Ret tt /\
  hd_error (trace (snd r)) = Some the_sweep /\
  filter is_kill (trace (snd r)) =
    match os_kill env pid SIGTERM with
    | Killed => [EvKill pid SIGKILL; EvKill pid SIGTERM]
    | _ => [EvKill pid SIGTERM]
    end ++ filter is_kill (trace s) /\
  slept (trace (snd r)) =
    match os_kill env pid SIGTERM with
    | Killed => 500
    | _ => 0
    end + slept (trace s).
Proof.
  intros Hpid Hnonzero Hsweep. cbn zeta.
  apply Z.eqb_neq in Hnonzero.
  unfold _cleanup_recording, try_except, bind, get_rec, subprocess_run, kill,
    time_sleep, when, log, emit, advance, raise, ret.
  cbn. rewrite Hpid, Hnonzero. cbn.
  destruct (os_kill env pid SIGTERM); cbn;
    try (destruct (os_kill env pid SIGKILL); cbn);
    try (destruct (rec_verbose (rec s)); cbn);
    destruct (run env ["pkill"; "pw-record"]) as [c | |]; cbn;
    try contradiction; repeat split.
Qed.

Lemma cleanup_signals_then_sweeps_witness :
  filter is_kill
    (trace (snd (_cleanup_recording
                   (mkEnv nothing_playing (fun _ => Returned None)
                          (fun _ => Returned tt) (fun _ _ => 0) (fun _ => true)
                          (fun _ => Exited 1) (fun _ => None)
                          (fun _ _ => NoSuchProcess))
                   (mkSt 0 0 0 0 [] (mkMonitor 500 false None None)
                         (mkRecorder false None (Some 4242))))))
  = [EvKill 4242 SIGTERM].
Proof.
  apply (cleanup_signals_then_sweeps
           (mkEnv nothing_playing (fun _ => Returned None)
                  (fun _ => Returned tt) (fun _ _ => 0) (fun _ => true)
                  (fun _ => Exited 1) (fun _ => None)
                  (fun _ _ => NoSuchProcess))
           (mkSt 0 0 0 0 [] (mkMonitor 500 false None None)
                 (mkRecorder false None (Some 4242)))
           4242).
  - reflexivity.
  - lia.
  - simpl. discriminate.
Defined.

(** ** Monitor: start detection followed by change detection *)

Lemma watching_known_iff (u : string) (r : Response (option Playback)) :
  watching (Some u) r = true <-> shown_uri r = Some u.
Proof.
  unfold watching, shown_uri.
  destruct (shown_item r) as [[pb it] |]; [ | split; discriminate ].
  split.
  - intros Heq. apply String.eqb_eq in Heq. congruence.
  - intros Heq. injection Heq as ->. apply String.eqb_refl.
Qed.

(** X19: the two monitor operations compose.  After
    [wait_for_track_start] has returned [True] for a URI,
    [monitor_until_track_change] keeps polling as long as the polls show
    that URI, and returns at the first poll that does not: the other URI
    if an item is shown, [None] otherwise.  [n] is the number of polls
    that still show the started track. *)
Theorem monitoring_after_track_start (env : Env) (fuel1 fuel : nat)
    (expected_uri : string) (timeout : Z) (on_change : option unit)
    (n : nat) (s s1 : St) :
  wait_for_track_start env fuel1 expected_uri timeout s = (Ret true, s1) ->
  0 <= poll_interval (mon s) ->
  (forall j, (j < n)%nat ->
     shown_uri (sp_current_playback env (n_playback s1 + j)) = Some expected_uri) ->
  shown_uri (sp_current_playback env (n_playback s1 + n)) <> Some expected_uri ->
  (n < fuel)%nat ->
  exists s',
    monitor_until_track_change env fuel on_change s1
      = (Ret (shown_uri (sp_current_playback env (n_playback s1 + n))), s') /\
    n_playback s' = S (n_playback s1 + n) /\
    mon s' = mon s1.
Proof.
  intros Hstarted Hpoll Hsame Hchange Hfuel.
  pose proof (wait_for_track_start_loop_session env fuel1 expected_uri timeout
                (now s) s) as Hsession.
  cbn zeta in Hsession.
  unfold wait_for_track_start, bind, time_time in Hstarted.
  rewrite Hstarted in Hsession. cbn in Hsession.
  destruct Hsession as (Hinterval & _ & Huri & _).
  destruct (monitor_until_track_change_run env on_change n fuel s1)
    as (s' & Hrun & Hk & _).
  - rewrite Hinterval. exact Hpoll.
  - intros j Hj. rewrite Huri. apply watching_known_iff. apply Hsame. exact Hj.
  - rewrite Huri.
    destruct (watching (Some expected_uri)
                (sp_current_playback env (n_playback s1 + n))) eqn:Hw;
      [ | reflexivity ].
    apply watching_known_iff in Hw. contradiction.
  - exact Hfuel.
  - exists s'. split; [ exact Hrun | ]. split; [ exact Hk | ].
    pose proof (monitor_until_track_change_session env fuel on_change s1) as Hmon.
    rewrite Hrun in Hmon. exact Hmon.
Qed.

Lemma monitoring_after_track_start_witness :
  let env :=
    world (scripted [Returned None;
                     snapshot "spotify:track:X" true 300 200000;
                     snapshot "spotify:track:X" true 900 200000]
                    (snapshot "spotify:track:Y" true 0 180000))
          (Exited 0) None in
  exists s',
    monitor_until_track_change env 5 None
      (snd (wait_for_track_start env 100 "spotify:track:X" 30 (fresh 500 false)))
    = (Ret (Some "spotify:track:Y"), s').
Proof.
  cbn zeta.
  destruct (monitoring_after_track_start
              (world (scripted [Returned None;
                                snapshot "spotify:track:X" true 300 200000;
                                snapshot "spotify:track:X" true 900 200000]
                               (snapshot "spotify:track:Y" true 0 180000))
                     (Exited 0) None)
              100 5 "spotify:track:X" 30 None 1 (fresh 500 false)
              (snd (wait_for_track_start
                      (world (scripted [Returned None;
                                        snapshot "spotify:track:X" true 300 200000;
                                        snapshot "spotify:track:X" true 900 200000]
                                       (snapshot "spotify:track:Y" true 0 180000))
                             (Exited 0) None)
                      100 "spotify:track:X" 30 (fresh 500 false))))
    as (s' & Hrun & _).
  - reflexivity.
  - simpl. lia.
  - intros [| j] Hj; [ reflexivity | lia ].
  - vm_compute. discriminate.
  - lia.
  - exists s'. exact Hrun.
Defined.

(** * cli.py *)

(** ** The system checks *)

(** X20: [check_python_version] compares the two parts of the version
    one by one: it accepts exactly the versions whose major is at least 3
    and whose minor is at least 10.  So 3.10 and 3.12 pass, 3.9 and 2.7
    fail, and a version 4.0 fails too, with the message
    "Python 4.0 (need 3.10+)". *)
Theorem check_python_version_compares_parts :
  (forall major minor,
     fst (check_python_version major minor) = true <->
     3 <= major /\ 10 <= minor) /\
  check_python_version 3 10 = (true, "Python 3.10"%string) /\
  check_python_version 3 12 = (true, "Python 3.12"%string) /\
  check_python_version 3 9 = (false, "Python 3.9 (need 3.10+)"%string) /\
  check_python_version 2 7 = (false, "Python 2.7 (need 3.10+)"%string) /\
  check_python_version 4 0 = (false, "Python 4.0 (need 3.10+)"%string).
Proof.
  split; [ | repeat split ].
  intros major minor. unfold check_python_version.
  destruct (3 <=? major) eqn:Hmajor; destruct (10 <=? minor) eqn:Hminor; cbn;
    rewrite ?Z.leb_le, ?Z.leb_gt in *; split;
    try discriminate; try reflexivity; lia.
Qed.

(** X21: [check_spotify_installed] never answers "Spotify (native)": a
    [spotify] on the path is already reported as the snap.  Its answers
    are the other three, and it is [True] with each of them but
    "Not installed". *)
Theorem check_spotify_installed_never_native (h : Host) :
  check_spotify_installed h <> Ret (true, "Spotify (native)"%string) /\
  (forall ok name,
     check_spotify_installed h = Ret (ok, name) ->
     (ok = true /\ name = "Spotify (flatpak)"%string) \/
     (ok = true /\ name = "Spotify (snap)"%string) \/
     (ok = false /\ name = "Not installed"%string)) /\
  (which h "spotify"%string = true ->
   forall stdout, flatpak_list h = Some stdout ->
   contains "com.spotify.Client" stdout = false ->
   check_spotify_installed h = Ret (true, "Spotify (snap)"%string)).
Proof.
  unfold check_spotify_installed.
  split; [ | split ].
  - destruct (flatpak_list h) as [stdout |]; [ | discriminate ].
    destruct (contains "com.spotify.Client" stdout); [ discriminate | ].
    destruct (which h "spotify"); cbn; [ discriminate | ].
    destruct (path_exists h "/snap/bin/spotify"); discriminate.
  - intros ok name.
    destruct (flatpak_list h) as [stdout |]; [ | discriminate ].
    destruct (contains "com.spotify.Client" stdout);
      [ intros Heq; injection Heq as <- <-; left; split; reflexivity | ].
    destruct (which h "spotify"); cbn;
      [ intros Heq; injection Heq as <- <-; right; left; split; reflexivity | ].
    destruct (path_exists h "/snap/bin/spotify");
      intros Heq; injection Heq as <- <-;
      [ right; left | right; right ]; split; reflexivity.
  - intros Hwhich stdout -> ->. rewrite Hwhich. reflexivity.
Qed.



(** X23: [detect_distro] answers one of four names, the release files
    taking precedence in the order Fedora, Arch, lsb, and "ubuntu" only
    when [/etc/lsb-release] could be read and mentions Ubuntu; and
    [get_install_commands] has no commands exactly for "unknown" among
    the four. *)
Theorem install_commands_for_every_detected_distro (h : Host) :
  let distro := detect_distro h in
  (distro = "fedora"%string \/ distro = "arch"%string \/
   distro = "ubuntu"%string \/ distro = "unknown"%string) /\
  (get_install_commands distro = None <-> distro = "unknown"%string) /\
  (path_exists h "/etc/fedora-release" = true -> distro = "fedora"%string) /\
  (path_exists h "/etc/fedora-release" = false ->
   path_exists h "/etc/arch-release" = true -> distro = "arch"%string) /\
  (distro = "ubuntu"%string ->
   exists content,
     read_file h "/etc/lsb-release" = Some content /\
     contains "Ubuntu" content = true).
Proof.
  cbn zeta. unfold detect_distro.
  destruct (path_exists h "/etc/fedora-release");
    [ repeat split; try (left; reflexivity); try discriminate | ].
  destruct (path_exists h "/etc/arch-release");
    [ repeat split; try (right; left; reflexivity); try discriminate | ].
  destruct (path_exists h "/etc/lsb-release");
    [ | repeat split; try (right; right; right; reflexivity); discriminate ].
  destruct (read_file h "/etc/lsb-release") as [content |];
    [ | repeat split; try (right; right; right; reflexivity); discriminate ].
  destruct (contains "Ubuntu" content) eqn:Hubuntu;
    [ | repeat split; try (right; right; right; reflexivity); discriminate ].
  repeat split; try (right; right; left; reflexivity); try discriminate.
  intros _. exists content. split; [ reflexivity | exact Hubuntu ].
Qed.

(** X24: [supports_ansi] does not depend on the terminal: every branch
    of its chain of tests returns [True], so it is [False] only when
    [isatty] itself raises. *)
Theorem supports_ansi_whatever_the_terminal (lower : string -> string)
    (isatty : Response bool) (term colorterm : option string) :
  supports_ansi lower isatty term colorterm = true <-> isatty <> Failed.
Proof.
  unfold supports_ansi. destruct isatty as [is_tty |].
  - split; [ discriminate | intros _ ].
    repeat match goal with
           | |- (if ?c then _ else _) = _ => destruct c
           end; reflexivity.
  - split; [ discriminate | intros H; contradiction H; reflexivity ].
Qed.

(** ** The arrow-key menu ([custom_arrow_menu]) *)







Lemma custom_arrow_menu_loop_arrows (input : nat -> option Z)
    (rest : list Ascii.ascii) (prompts : nat) (fuel : nat)
    (presses : list bool) :
  forall selected,
    custom_arrow_menu_loop (List.length presses + S fuel) input
      (arrows presses ++ CR :: rest) prompts (selected mod menu_items)
    = Some ((selected + displacement presses) mod menu_items).
Proof.
  induction presses as [| down presses IH]; intros selected.
  - cbn. rewrite Z.add_0_r. reflexivity.
  - cbn [List.length Nat.add arrows flat_map displacement].
    fold (arrows presses).
    destruct down; cbn -[custom_arrow_menu_loop Z.modulo menu_items Z.add Z.sub];
      cbn [custom_arrow_menu_loop]; cbn -[custom_arrow_menu_loop Z.modulo menu_items Z.add Z.sub].
    + rewrite Zplus_mod_idemp_l.
      rewrite IH. f_equal. f_equal. lia.
    + rewrite Zminus_mod_idemp_l.
      rewrite IH. f_equal. f_equal. lia.
Qed.

(** X26: the arrows move the selection round the seven entries.  After
    any run of up and down arrows followed by Enter, the menu dispatches
    the entry at (downs minus ups) modulo 7, counted from the first
    entry: one up from the first entry is Exit, seven downs are the first
    entry again. *)
Theorem arrows_select_cyclically :
  (forall fuel input rest presses,
     custom_arrow_menu (List.length presses + S fuel) input
       (arrows presses ++ CR :: rest)
     = Some (handle_selection (displacement presses mod 7))) /\
  custom_arrow_menu 2 (fun _ => None) (arrows [false] ++ [CR]) = Some Exit /\
  custom_arrow_menu 3 (fun _ => None) (arrows [true; true] ++ [CR])
    = Some Record_playlist /\
  custom_arrow_menu 8 (fun _ => None)
    (arrows [true; true; true; true; true; true; true] ++ [LF])
    = Some Record_track.
Proof.
  split; [ | repeat split ].
  intros fuel input rest presses. unfold custom_arrow_menu.
  pose proof (custom_arrow_menu_loop_arrows input rest 0 fuel presses 0) as Hrun.
  change (0 mod menu_items) with 0 in Hrun. rewrite Hrun. reflexivity.
Qed.

